(** * training_pipeline.py: the patch-aligned label/feature pipeline

    A shallow embedding of [src/python/training_pipeline.py]: the patch-grid
    geometry of [preprocess_image] and [resize_mask], the label quantizer
    [patch_quant_filter], and the control flow of [train_classifier_op]
    with its calls to the external collaborators (PocketBase, PIL,
    onnxruntime, scikit-learn, skl2onnx).

    Conventions of the embedding.
    - Python [int] is [Z].
    - A Python [float] and a float32 array element are represented by the
      exact rational they denote ([Q]); the only place where binary64
      rounding decides an integer result, the true division inside
      [int((w * image_size) / (h * patch_size))], is modelled with its
      rounding written out ([true_divide]).  The constants of the
      comparison of line 125 are the float32 values NumPy compares with
      ([float32_0_01], [float32_0_99]); the arithmetic that produces the
      array elements is the exact one.
    - A raised exception is a value [Raise e], an instance of [Exception];
      KeyboardInterrupt and SystemExit are not modelled.  Every call into
      a library that the source does not define is a field of [World]. *)

From Stdlib Require Import String ZArith QArith Qabs Bool Lia Lqa Arith List.
Import ListNotations.
Local Open Scope string_scope.
Local Open Scope list_scope.
Local Open Scope Z_scope.

(** ** Exceptions and results *)

Module Py.

(** An instance of [Exception], identified by the name of its class. *)
Inductive exn : Type := Exn (cls : string).

Inductive result (A : Type) : Type :=
| Ok (a : A)
| Raise (e : exn).
Arguments Ok {A} a.
Arguments Raise {A} e.

Definition bind {A B} (r : result A) (k : A -> result B) : result B :=
  match r with
  | Ok a => k a
  | Raise e => Raise e
  end.

Definition ZeroDivisionError : exn := Exn "ZeroDivisionError".
Definition OverflowError : exn := Exn "OverflowError".
Definition ValueError : exn := Exn "ValueError".
Definition IndexError : exn := Exn "IndexError".
Definition RuntimeError : exn := Exn "RuntimeError".

(** [a // b] on integers: floor division. *)
Definition floordiv (a b : Z) : result Z :=
  if b =? 0 then Raise ZeroDivisionError else Ok (a / b).

(** [a / b] on integers: the binary64 number nearest to the exact quotient,
    ties to even; [OverflowError] when that is not finite.  The float is
    returned as the rational it denotes.

    [q] is the quotient scaled by [2^s] and cut to an integer of 53 bits
    (fewer below the normal range, where the last place stays at
    [2^-1074]); [m] is [q] rounded on the remainder. *)
Definition true_divide (a b : Z) : result Q :=
  if b =? 0 then Raise ZeroDivisionError
  else if a =? 0 then Ok 0%Q
  else
    let sgn := Z.sgn a * Z.sgn b in
    let a' := Z.abs a in
    let b' := Z.abs b in
    let d := Z.log2 a' - Z.log2 b' in
    let q0 := Z.shiftl a' (53 - d) / b' in
    let s := Z.min (if 2 ^ 53 <=? q0 then 52 - d else 53 - d) 1074 in
    let num := if 0 <=? s then a' * 2 ^ s else a' in
    let den := if 0 <=? s then b' else b' * 2 ^ (- s) in
    let q := num / den in
    let r := num mod den in
    let m := if (den <? 2 * r) || ((den =? 2 * r) && Z.odd q)
             then q + 1 else q in
    if 0 <=? s then
      Ok (Qmake (sgn * m) (Z.to_pos (2 ^ s)))
    else if 2 ^ 1024 <=? m * 2 ^ (- s) then Raise OverflowError
    else Ok (inject_Z (sgn * m * 2 ^ (- s))).

(** [int(x)] on a float: truncation toward zero. *)
Definition int (x : Q) : Z := Z.quot (Qnum x) (Zpos (Qden x)).

End Py.

Import Py.

(** ** Module constants (lines 29-32) *)

Definition PATCH_SIZE : Z := 16.
Definition IMAGE_SIZE : Z := 768.
Definition IMAGENET_MEAN : list Q := [485 # 1000; 456 # 1000; 406 # 1000]%Q.
Definition IMAGENET_STD : list Q := [229 # 1000; 224 # 1000; 225 # 1000]%Q.

(** ** Images and arrays *)

(** A PIL image: its mode, its [size] as PIL reports it, (width, height),
    and the raster, row by row, each pixel the list of its band values. *)
Record PILImage : Type := {
  mode : string;
  size : Z * Z;
  pixels : list (list (list Z))
}.

(** [len(img.getbands())]. *)
Definition getbands (m : string) : nat :=
  if String.eqb m "RGBA" || String.eqb m "CMYK" || String.eqb m "RGBX"
  then 4%nat
  else if String.eqb m "RGB" || String.eqb m "YCbCr" || String.eqb m "LAB"
          || String.eqb m "HSV"
  then 3%nat
  else if String.eqb m "LA" || String.eqb m "PA" then 2%nat
  else 1%nat.

(** [img.convert("RGB")], as the loop calls it, on an RGBA image: the
    alpha band is dropped. *)
Definition convert_RGB (img : PILImage) : PILImage :=
  {| mode := "RGB"; size := size img;
     pixels := map (map (firstn 3)) (pixels img) |}.

(** [img.split()[-1]]: the last band as an image of mode L. *)
Definition split_last (img : PILImage) : PILImage :=
  {| mode := "L"; size := size img;
     pixels := map (map (fun px => [last px 0])) (pixels img) |}.

(** A 2-D float array of shape [(length arr_rows, arr_cols)]. *)
Record ndarray2 : Type := {
  arr_cols : nat;
  arr_rows : list (list Q)
}.

Definition tensor3 : Type := list (list (list Q)).
Definition tensor4 : Type := list tensor3.

(** The shape of a nested list, read off the first element at each depth. *)
Definition shape3 (t : tensor3) : list nat :=
  [length t; length (hd [] t); length (hd [] (hd [] t))].
Definition shape4 (t : tensor4) : list nat :=
  length t :: shape3 (hd [] t).

(** A nested list is an array of the given shape: every element at every
    depth has the announced length. *)
Definition has_shape3 (t : tensor3) (d1 d2 d3 : nat) : Prop :=
  length t = d1 /\
  Forall (fun plane => length plane = d2 /\
                       Forall (fun row => length row = d3) plane) t.
Definition has_shape4 (t : tensor4) (d0 d1 d2 d3 : nat) : Prop :=
  length t = d0 /\ Forall (fun a => has_shape3 a d1 d2 d3) t.

(** [TF.to_tensor] on a PIL image: band-first planes, bytes scaled by 1/255. *)
Definition to_tensor (img : PILImage) : tensor3 :=
  map (fun c => map (map (fun px => inject_Z (nth c px 0%Z) / 255)%Q) (pixels img))
      (seq 0 (getbands (mode img))).

(** The sum of a list of numbers, kept in lowest terms. *)
Definition qsum (l : list Q) : Q :=
  fold_right (fun x acc => Qred (x + acc)) 0%Q l.

(** [torch.nn.Conv2d(1, 1, k, stride=s, bias=False)] applied to an
    unbatched one-channel tensor; no padding, so the output has
    [(H - k) / s + 1] rows, and a kernel larger than the input is refused. *)
Record Conv2d : Type := {
  kernel_size : nat;
  stride : nat;
  weight : list (list Q)
}.

Definition conv_at (c : Conv2d) (plane : list (list Q)) (i j : nat) : Q :=
  qsum (map (fun a =>
    qsum (map (fun b =>
      (nth b (nth a (weight c) []) 0 *
       nth (j * stride c + b) (nth (i * stride c + a) plane []) 0)%Q)
      (seq 0 (kernel_size c))))
    (seq 0 (kernel_size c))).

Definition conv2d (c : Conv2d) (x : tensor3) : result tensor3 :=
  match x with
  | [plane] =>
      let H := length plane in
      let W := length (hd [] plane) in
      let k := kernel_size c in
      if ((H <? k) || (W <? k))%nat then Raise RuntimeError
      else
        Ok [map (fun i => map (fun j => conv_at c plane i j)
                              (seq 0 ((W - k) / stride c + 1)))
                (seq 0 ((H - k) / stride c + 1))]
  | _ => Raise RuntimeError
  end.

(** Lines 97-98: the box filter, every weight [1 / (PATCH_SIZE * PATCH_SIZE)]. *)
Definition patch_quant_filter : Conv2d :=
  {| kernel_size := Z.to_nat PATCH_SIZE;
     stride := Z.to_nat PATCH_SIZE;
     weight := repeat (repeat (1 / inject_Z (PATCH_SIZE * PATCH_SIZE))%Q
                              (Z.to_nat PATCH_SIZE))
                      (Z.to_nat PATCH_SIZE) |}.

(** [t.squeeze().view(-1)]: all elements in row-major order. *)
Definition flatten3 (t : tensor3) : list Q := concat (concat t).

(** ** Patch geometry (lines 35-52) *)

(** The two resize calls are library functions.  [Image_resize] is PIL's
    [img.resize((width, height), BICUBIC)]; [TF_resize] is torchvision's
    [TF.resize(img, (height, width))]. *)
Record Resizers : Type := {
  Image_resize : PILImage -> Z * Z -> result PILImage;
  TF_resize : PILImage -> Z * Z -> result PILImage
}.

(** Lines 36-39: the target size [(height, width)] of [preprocess_image]. *)
Definition preprocess_target_size (img_pil : PILImage)
    (image_size patch_size : Z) : result (Z * Z) :=
  let '(w, h) := size img_pil in
  bind (floordiv image_size patch_size) (fun h_patches =>
  bind (true_divide (w * image_size) (h * patch_size)) (fun x =>
  let w_patches := int x in
  Ok (h_patches * patch_size, w_patches * patch_size))).

(** Lines 48-51: the target size [(height, width)] of [resize_mask]. *)
Definition mask_target_size (mask_pil : PILImage)
    (image_size patch_size : Z) : result (Z * Z) :=
  let '(w, h) := size mask_pil in
  bind (true_divide image_size patch_size) (fun y =>
  let h_patches := int y in
  bind (true_divide (w * image_size) (h * patch_size)) (fun x =>
  let w_patches := int x in
  Ok (h_patches * patch_size, w_patches * patch_size))).

(** [np.array(img, dtype=np.float32) / 255.0], shape (H, W, bands); the
    quotient is the exact one, the rounding to float32 is left out. *)
Definition img_to_np (img : PILImage) : tensor3 :=
  map (map (map (fun v => inject_Z v / 255)%Q)) (pixels img).

(** [(img_np - mean) / std] on an array of three bands, which is what the
    op passes: the two vectors are broadcast along the last axis.  The
    arithmetic is the exact one, the rounding to float32 is left out. *)
Definition normalize (img_np : tensor3) (mean std : list Q) : tensor3 :=
  map (map (fun px =>
    map (fun '(v, (m, s)) => ((v - m) / s)%Q) (combine px (combine mean std))))
    img_np.

(** [a.transpose(2, 0, 1)] on an array of shape (H, W, C). *)
Definition transpose_201 (C : nat) (a : tensor3) : tensor3 :=
  map (fun c => map (map (fun px => nth c px 0%Q)) a) (seq 0 C).

Definition preprocess_image (rz : Resizers) (img_pil : PILImage)
    (image_size patch_size : Z) : result tensor4 :=
  bind (preprocess_target_size img_pil image_size patch_size) (fun target_size =>
  bind (Image_resize rz img_pil (snd target_size, fst target_size)) (fun resized_img =>
  let img_np := img_to_np resized_img in
  let normalized_img := normalize img_np IMAGENET_MEAN IMAGENET_STD in
  Ok [transpose_201 (getbands (mode resized_img)) normalized_img])).

Definition resize_mask (rz : Resizers) (mask_pil : PILImage)
    (image_size patch_size : Z) : result tensor3 :=
  bind (mask_target_size mask_pil image_size patch_size) (fun target_size =>
  bind (TF_resize rz mask_pil target_size) (fun resized =>
  Ok (to_tensor resized))).

(** ** NumPy helpers used by the op *)

(** [a < b] on floats, as a boolean. *)
Definition Qlt_bool (a b : Q) : bool := negb (Qle_bool b a).

(** [np.concatenate(arrays, axis=0)] on 2-D arrays: an empty list and
    arrays that disagree on the second dimension are refused. *)
Definition concatenate2 (arrays : list ndarray2) : result ndarray2 :=
  match arrays with
  | [] => Raise ValueError
  | a :: rest =>
      if forallb (fun b => Nat.eqb (arr_cols b) (arr_cols a)) rest
      then Ok {| arr_cols := arr_cols a;
                 arr_rows := concat (map arr_rows arrays) |}
      else Raise ValueError
  end.

(** [np.concatenate(arrays, axis=0)] on 1-D arrays. *)
Definition concatenate1 (arrays : list (list Q)) : result (list Q) :=
  match arrays with
  | [] => Raise ValueError
  | _ => Ok (concat arrays)
  end.

(** [a[idx]] with a boolean array [idx]: the entries of [a] where [idx]
    holds, in order; the two lengths must agree. *)
Definition mask_index {A : Type} (a : list A) (idx : list bool) : result (list A) :=
  if Nat.eqb (length idx) (length a)
  then Ok (map fst (filter snd (combine a idx)))
  else Raise IndexError.

Definition mask_index2 (a : ndarray2) (idx : list bool) : result ndarray2 :=
  bind (mask_index (arr_rows a) idx) (fun rows =>
  Ok {| arr_cols := arr_cols a; arr_rows := rows |}).

(** The constants [0.01] and [0.99] as line 125 compares with them: [ys] is
    a float32 array, so NumPy compares in float32 and takes each Python
    float to the nearest float32 value, 10737418 * 2^-30 (below 1/100) and
    16609444 * 2^-24 (above 99/100). *)
Definition float32_0_01 : Q := 5368709 # 536870912.
Definition float32_0_99 : Q := 4152361 # 4194304.

(** Line 125: [(ys < 0.01) | (ys > 0.99)]. *)
Definition clean_mask (ys : list Q) : list bool :=
  map (fun y => Qlt_bool y float32_0_01 || Qlt_bool float32_0_99 y) ys.

(** Line 133: [(ys_clean > 0).astype(int)]. *)
Definition fit_labels (ys_clean : list Q) : list Z :=
  map (fun y => if Qlt_bool 0 y then 1 else 0) ys_clean.

(** ** Collaborators of the op *)

Definition blob : Type := string.

(** The dictionary passed to [pb.collection('datasets').update]. *)
Record update_body : Type := {
  status : string;
  classifier_file : option (string * blob)
}.

(** A fitted [LogisticRegression]. *)
Record Fitted : Type := {
  coef_ : list Q;
  intercept_ : Q
}.

(** [FloatTensorType(shape)]; [None] is a dynamic dimension. *)
Record FloatTensorType : Type := { tensor_shape : list (option nat) }.

(** What an ONNX model declares, as far as the op's arguments decide it. *)
Record ModelProto : Type := {
  graph_input : list (string * FloatTensorType);
  zipmap_output : bool;
  opset_import : Z;
  SerializeToString : blob
}.

(** Every library call of [train_classifier_op] whose code is not in the
    file.  A call either returns or raises. *)
Record World : Type := {
  pb_auth : result unit;
  pb_get_one : string -> result (list string);
  pb_update : string -> update_body -> result unit;
  requests_get : string -> result blob;
  InferenceSession : result unit;
  ort_run : tensor4 -> result (list (list ndarray2));
  Image_open : blob -> result PILImage;
  Image_load : PILImage -> result unit;
  resizers : Resizers;
  LogisticRegression_fit : ndarray2 -> list Z -> result Fitted;
  to_onnx : Fitted -> list (string * FloatTensorType) -> bool -> Z
            -> result ModelProto
}.

(** The calls the op makes to the status sink, the trainer and the
    exporter, with their arguments, in the order they are made. *)
Inductive event : Type :=
| PbUpdate (record_id : string) (body : update_body)
| Fit (X : ndarray2) (y : list Z)
| ToOnnx (clf : Fitted) (initial_types : list (string * FloatTensorType))
         (zipmap : bool) (target_opset : Z).

(** A computation that may raise and that appends to the call log. *)
Definition M (A : Type) : Type := list event -> result A * list event.

Definition raise {A} (e : exn) : M A := fun t => (Raise e, t).
Definition lift {A} (r : result A) : M A := fun t => (r, t).
Definition call {A} (ev : event) (r : result A) : M A := fun t => (r, t ++ [ev]).

Definition mbind {A B} (m : M A) (k : A -> M B) : M B :=
  fun t => match m t with
           | (Ok a, t') => k a t'
           | (Raise e, t') => (Raise e, t')
           end.

(** [try: body  except Exception as e: handler e].  Every value of [exn]
    is an instance of [Exception], so the handler sees whatever the body
    raises; KeyboardInterrupt and SystemExit, which the clause lets
    through, are not among the raised values of this development. *)
Definition try_except {A} (body : M A) (handler : exn -> M A) : M A :=
  fun t => match body t with
           | (Ok a, t') => (Ok a, t')
           | (Raise e, t') => handler e t'
           end.

Notation "x <- c1 ;; c2" := (bind c1 (fun x => c2))
  (at level 61, c1 at next level, right associativity).
Notation "x <~ c1 ;; c2" := (mbind c1 (fun x => c2))
  (at level 61, c1 at next level, right associativity).

(** ** train_classifier_op (lines 57-174) *)

(** Lines 78-85: every file of the record is downloaded into the temporary
    directory.  The bytes stored under a name are what the download of that
    name returned. *)
Fixpoint download_images (w : World) (filenames : list string)
  : result (list (string * blob)) :=
  match filenames with
  | [] => Ok []
  | filename :: rest =>
      content <- requests_get w filename ;;
      image_files <- download_images w rest ;;
      Ok ((filename, content) :: image_files)
  end.

(** [np.ndarray.squeeze(0)] on the extractor's output [1, N, D]. *)
Definition squeeze0 (a : list ndarray2) : result ndarray2 :=
  match a with
  | [feats] => Ok feats
  | _ => Raise ValueError
  end.

(** Lines 101-118, the body of the loop for one file: [None] when the
    image is passed over by [continue], otherwise the features and the
    quantized mask that are appended to [xs] and [ys]. *)
Definition extract_image (w : World) (content : blob)
  : result (option (ndarray2 * list Q)) :=
  img <- Image_open w content ;;
  if negb (String.eqb (mode img) "RGBA") then Ok None
  else
    _ <- Image_load w img ;;
    let rgb_img := convert_RGB img in
    let mask_img := split_last img in
    mask_tensor <- resize_mask (resizers w) mask_img IMAGE_SIZE PATCH_SIZE ;;
    quantized <- conv2d patch_quant_filter mask_tensor ;;
    let mask_quantized := flatten3 quantized in
    img_input <- preprocess_image (resizers w) rgb_img IMAGE_SIZE PATCH_SIZE ;;
    outputs <- ort_run w img_input ;;
    feats <- match outputs with
             | [] => Raise IndexError
             | out0 :: _ => squeeze0 out0
             end ;;
    Ok (Some (feats, mask_quantized)).

(** Lines 94-118: the loop over the downloaded files. *)
Fixpoint extract_loop (w : World) (image_files : list (string * blob))
    (xs : list ndarray2) (ys : list (list Q))
  : result (list ndarray2 * list (list Q)) :=
  match image_files with
  | [] => Ok (xs, ys)
  | (_, content) :: rest =>
      r <- extract_image w content ;;
      match r with
      | None => extract_loop w rest xs ys
      | Some (feats, mask_quantized) =>
          extract_loop w rest (xs ++ [feats]) (ys ++ [mask_quantized])
      end
  end.

Definition training : update_body :=
  {| status := "training"; classifier_file := None |}.
Definition failed : update_body :=
  {| status := "failed"; classifier_file := None |}.
Definition ready (onnx_bytes : blob) : update_body :=
  {| status := "ready";
     classifier_file := Some ("classifier.onnx", onnx_bytes) |}.

(** Lines 75-169: the body of the [try]. *)
Definition try_body (w : World) (record_id : string) (images : list string)
  : M unit :=
  image_files <~ lift (download_images w images) ;;
  _ <~ lift (InferenceSession w) ;;
  tables <~ lift (extract_loop w image_files [] []) ;;
  xs <~ lift (concatenate2 (fst tables)) ;;
  ys <~ lift (concatenate1 (snd tables)) ;;
  let idx := clean_mask ys in
  xs_clean <~ lift (mask_index2 xs idx) ;;
  ys_clean <~ lift (mask_index ys idx) ;;
  let y := fit_labels ys_clean in
  clf <~ call (Fit xs_clean y) (LogisticRegression_fit w xs_clean y) ;;
  let feature_dim := arr_cols xs_clean in
  let initial_types :=
    [("patch_features", {| tensor_shape := [None; Some feature_dim] |})] in
  onx <~ call (ToOnnx clf initial_types false 17)
              (to_onnx w clf initial_types false 17) ;;
  let body := ready (SerializeToString onx) in
  call (PbUpdate record_id body) (pb_update w record_id body).

Definition train_classifier_op (w : World) (record_id : string) : M unit :=
  _ <~ lift (pb_auth w) ;;
  images <~ lift (pb_get_one w record_id) ;;
  _ <~ call (PbUpdate record_id training) (pb_update w record_id training) ;;
  try_except (try_body w record_id images)
    (fun e =>
       _ <~ call (PbUpdate record_id failed) (pb_update w record_id failed) ;;
       raise e).

(** ** Contracts of the library calls *)

(** A raster has the height and width its [size] announces. *)
Definition wf_raster (img : PILImage) : Prop :=
  length (pixels img) = Z.to_nat (snd (size img)) /\
  Forall (fun row => length row = Z.to_nat (fst (size img))) (pixels img).

(** Every pixel has one byte per band of the mode. *)
Definition wf_pixels (img : PILImage) : Prop :=
  Forall (Forall (fun px => length px = getbands (mode img) /\
                            Forall (fun v => 0 <= v <= 255) px))
         (pixels img).

(** Both resize calls return an image of the mode they were given and of
    the size they were asked for: PIL takes (width, height), torchvision
    takes (height, width). *)
Definition resize_contract (rz : Resizers) : Prop :=
  (forall img tw th r, Image_resize rz img (tw, th) = Ok r ->
     mode r = mode img /\ size r = (tw, th) /\ wf_raster r) /\
  (forall img th tw r, TF_resize rz img (th, tw) = Ok r ->
     mode r = mode img /\ size r = (tw, th) /\ wf_raster r).

(** The shape contract of the feature extractor: on an input of shape
    [1, 3, rows*P, cols*P] its first output has shape
    [1, rows*cols, feature_dim]. *)
Definition extractor_contract (w : World) : Prop :=
  forall t rows cols outputs,
    (0 < rows)%nat -> (0 < cols)%nat ->
    has_shape4 t 1 3 (rows * Z.to_nat PATCH_SIZE) (cols * Z.to_nat PATCH_SIZE) ->
    ort_run w t = Ok outputs ->
    exists feats rest,
      outputs = [feats] :: rest /\ length (arr_rows feats) = (rows * cols)%nat.

(** The converter declares the inputs it was given, wraps the class
    scores in a ZipMap only when asked to, and records the opset it was
    asked for. *)
Definition converter_contract (w : World) : Prop :=
  forall clf initial_types zipmap target_opset onx,
    to_onnx w clf initial_types zipmap target_opset = Ok onx ->
    graph_input onx = initial_types /\
    zipmap_output onx = zipmap /\
    opset_import onx = target_opset.

(** ** Derived quantities used in the statements *)

(** The patch grid (rows, cols) of an image, from the target size the
    code computes for it. *)
Definition patch_grid (img : PILImage) : Z * Z :=
  match mask_target_size img IMAGE_SIZE PATCH_SIZE with
  | Ok (th, tw) => (th / PATCH_SIZE, tw / PATCH_SIZE)
  | Raise _ => (0, 0)
  end.

Definition patch_count (img : PILImage) : nat :=
  Z.to_nat (fst (patch_grid img) * snd (patch_grid img)).

(** The images the loop accepts, in order. *)
Fixpoint accepted (w : World) (image_files : list (string * blob))
  : list PILImage :=
  match image_files with
  | [] => []
  | (_, content) :: rest =>
      match Image_open w content with
      | Ok img => if String.eqb (mode img) "RGBA"
                  then img :: accepted w rest else accepted w rest
      | Raise _ => accepted w rest
      end
  end.

Definition cumulative_patch_count (imgs : list PILImage) : nat :=
  fold_right (fun img n => (patch_count img + n)%nat) 0%nat imgs.

(** The number of rows of a list of 2-D arrays, and of 1-D arrays. *)
Definition total_rows (xs : list ndarray2) : nat :=
  length (concat (map arr_rows xs)).
Definition total_labels (ys : list (list Q)) : nat := length (concat ys).

(** The indices a boolean mask selects. *)
Definition selected (idx : list bool) : list nat :=
  filter (fun i => nth i idx false) (seq 0 (length idx)).

(** The Clean Subset of a soft-label table, as indices. *)
Definition clean_subset (ys : list Q) : list nat := selected (clean_mask ys).

(** The arithmetic mean of the pixels of patch (i, j) of a mask plane. *)
Definition patch_mean (P : nat) (plane : list (list Q)) (i j : nat) : Q :=
  (qsum (map (fun a => qsum (map (fun b =>
      nth (j * P + b) (nth (i * P + a) plane []) 0%Q) (seq 0 P))) (seq 0 P))
   / inject_Z (Z.of_nat (P * P)))%Q.

(** The status of the last update sent to the sink, if any. *)
Fixpoint last_status (t : list event) : option string :=
  match t with
  | [] => None
  | ev :: rest =>
      match last_status rest with
      | Some s => Some s
      | None => match ev with
                | PbUpdate _ body => Some (status body)
                | _ => None
                end
      end
  end.

Definition is_fit (ev : event) : bool :=
  match ev with Fit _ _ => true | _ => false end.

(** The binarization [label > 0.5] of the trainer's contract; the source
    has [fit_labels]. *)
Definition binarize_half (ys_clean : list Q) : list Z :=
  map (fun y => if Qlt_bool (1 # 2) y then 1 else 0) ys_clean.

(** The world [w] with the record's file list replaced by [images]. *)
Definition set_images (w : World) (images : list string) : World :=
  {| pb_auth := pb_auth w;
     pb_get_one := fun _ => Ok images;
     pb_update := pb_update w;
     requests_get := requests_get w;
     InferenceSession := InferenceSession w;
     ort_run := ort_run w;
     Image_open := Image_open w;
     Image_load := Image_load w;
     resizers := resizers w;
     LogisticRegression_fit := LogisticRegression_fit w;
     to_onnx := to_onnx w |}.

(** The [initial_types] argument the op builds from the table the
    classifier was fitted on (lines 139-148). *)
Definition patch_features_type (X : ndarray2) : list (string * FloatTensorType) :=
  [("patch_features", {| tensor_shape := [None; Some (arr_cols X)] |})].

(** The ways the [try] body can run, as seen from the call log: how it
    ends and the calls it has made. *)
Inductive body_run (w : World) (record_id : string)
  : result unit -> list event -> Prop :=
| run_no_fit (e : exn) :
    body_run w record_id (Raise e) []
| run_fit_raises (X : ndarray2) (y : list Z) (e : exn) :
    LogisticRegression_fit w X y = Raise e ->
    body_run w record_id (Raise e) [Fit X y]
| run_export_raises (X : ndarray2) (y : list Z) (clf : Fitted) (e : exn) :
    LogisticRegression_fit w X y = Ok clf ->
    to_onnx w clf (patch_features_type X) false 17 = Raise e ->
    body_run w record_id (Raise e)
      [Fit X y; ToOnnx clf (patch_features_type X) false 17]
| run_upload (X : ndarray2) (y : list Z) (clf : Fitted) (onx : ModelProto) :
    LogisticRegression_fit w X y = Ok clf ->
    to_onnx w clf (patch_features_type X) false 17 = Ok onx ->
    body_run w record_id
      (pb_update w record_id (ready (SerializeToString onx)))
      [Fit X y; ToOnnx clf (patch_features_type X) false 17;
       PbUpdate record_id (ready (SerializeToString onx))].

(** The ways the op can run: how it ends and the calls it has made. *)
Inductive op_run (w : World) (record_id : string)
  : result unit -> list event -> Prop :=
| op_no_record (e : exn) :
    op_run w record_id (Raise e) []
| op_training_raises (e : exn) :
    pb_update w record_id training = Raise e ->
    op_run w record_id (Raise e) [PbUpdate record_id training]
| op_body_returns (evs : list event) :
    body_run w record_id (Ok tt) evs ->
    op_run w record_id (Ok tt) (PbUpdate record_id training :: evs)
| op_body_raises (e : exn) (evs : list event) :
    body_run w record_id (Raise e) evs ->
    op_run w record_id
      (match pb_update w record_id failed with
       | Ok _ => Raise e
       | Raise e' => Raise e'
       end)
      (PbUpdate record_id training :: evs ++ [PbUpdate record_id failed]).

(** ** A concrete world

    A small instance of every collaborator, used to run the op on
    concrete batches: nearest-neighbour resizing, an extractor that returns
    two features per patch, a trainer that refuses an empty table or a
    single class, and a converter that records its arguments. *)

Module Demo.

Definition zrange (n : Z) : list Z := map Z.of_nat (seq 0 (Z.to_nat n)).

Definition nearest (img : PILImage) (tw th : Z) : result PILImage :=
  if (tw <=? 0) || (th <=? 0) then Raise ValueError
  else
    let '(w0, h0) := size img in
    Ok {| mode := mode img; size := (tw, th);
          pixels :=
            map (fun i => map (fun j =>
                   nth (Z.to_nat (j * w0 / tw))
                       (nth (Z.to_nat (i * h0 / th)) (pixels img) []) [])
                   (zrange tw))
                (zrange th) |}.

Definition rz : Resizers :=
  {| Image_resize := fun img wh => nearest img (fst wh) (snd wh);
     TF_resize := fun img hw => nearest img (snd hw) (fst hw) |}.

(** A 1x48 RGBA image: opaque in the upper half, transparent below. *)
Definition two_tone : PILImage :=
  {| mode := "RGBA"; size := (1, 48);
     pixels := map (fun i => [[10; 20; 30; if i <? 24 then 255 else 0]])
                   (zrange 48) |}.

(** A 1x48 RGBA image, half transparent everywhere. *)
Definition grey : PILImage :=
  {| mode := "RGBA"; size := (1, 48);
     pixels := repeat [[10; 20; 30; 128]] 48 |}.

(** A 1x48 RGBA image, almost transparent: alpha 1 of 255 in the upper
    half, 0 below. *)
Definition faint : PILImage :=
  {| mode := "RGBA"; size := (1, 48);
     pixels := map (fun i => [[10; 20; 30; if i <? 24 then 1 else 0]])
                   (zrange 48) |}.

(** A 1x48 RGBA image, opaque everywhere. *)
Definition solid : PILImage :=
  {| mode := "RGBA"; size := (1, 48);
     pixels := repeat [[200; 100; 50; 255]] 48 |}.

(** A 2x2 image without an alpha channel. *)
Definition opaque : PILImage :=
  {| mode := "RGB"; size := (2, 2);
     pixels := [[[1; 2; 3]; [4; 5; 6]]; [[7; 8; 9]; [10; 11; 12]]] |}.

(** [two_tone] without its alpha band, resized to 16x768. *)
Definition two_tone_resized : PILImage :=
  {| mode := "RGB"; size := (16, 768);
     pixels := repeat (repeat [10; 20; 30] 16) 768 |}.

Definition open_by_name (content : blob) : result PILImage :=
  if String.eqb content "two_tone.png" then Ok two_tone
  else if String.eqb content "grey.png" then Ok grey
  else if String.eqb content "faint.png" then Ok faint
  else if String.eqb content "solid.png" then Ok solid
  else if String.eqb content "opaque.jpg" then Ok opaque
  else Raise (Exn "UnidentifiedImageError").

(** The features of [n] patches: the index of the patch and a constant. *)
Definition features (n : nat) : ndarray2 :=
  {| arr_cols := 2;
     arr_rows := map (fun k => [inject_Z (Z.of_nat k); 1%Q]) (seq 0 n) |}.

Definition embed (t : tensor4) : result (list (list ndarray2)) :=
  match shape4 t with
  | [_; _; H; W] =>
      Ok [[features ((H / Z.to_nat PATCH_SIZE) * (W / Z.to_nat PATCH_SIZE))]]
  | _ => Raise RuntimeError
  end.

Definition fit (X : ndarray2) (y : list Z) : result Fitted :=
  if (existsb (Z.eqb 0) y) && (existsb (Z.eqb 1) y)
  then Ok {| coef_ := repeat 0%Q (arr_cols X); intercept_ := 0%Q |}
  else Raise ValueError.

Definition convert (clf : Fitted) (initial_types : list (string * FloatTensorType))
    (zipmap : bool) (target_opset : Z) : result ModelProto :=
  Ok {| graph_input := initial_types; zipmap_output := zipmap;
        opset_import := target_opset; SerializeToString := "onnx" |}.

(** A world whose record holds the files [images]; a file's bytes are
    its name. *)
Definition world (images : list string) : World :=
  {| pb_auth := Ok tt;
     pb_get_one := fun _ => Ok images;
     pb_update := fun _ _ => Ok tt;
     requests_get := fun filename => Ok filename;
     InferenceSession := Ok tt;
     ort_run := embed;
     Image_open := open_by_name;
     Image_load := fun _ => Ok tt;
     resizers := rz;
     LogisticRegression_fit := fit;
     to_onnx := convert |}.

(** The same world with a broken link to the image store. *)
Definition offline (images : list string) : World :=
  {| pb_auth := Ok tt;
     pb_get_one := fun _ => Ok images;
     pb_update := fun _ _ => Ok tt;
     requests_get := fun _ => Raise (Exn "ConnectionError");
     InferenceSession := Ok tt;
     ort_run := embed;
     Image_open := open_by_name;
     Image_load := fun _ => Ok tt;
     resizers := rz;
     LogisticRegression_fit := fit;
     to_onnx := convert |}.

End Demo.


(** ** The job and the sensor (lines 178-226) *)

(** A run configuration: a nested dictionary with strings at the leaves. *)
#[warnings="-register-all"]
Inductive config : Type :=
| ConfigStr (s : string)
| ConfigDict (entries : list (string * config)).

(** [d[key]] on a configuration dictionary. *)
Definition config_get (key : string) (c : config) : result config :=
  match c with
  | ConfigDict entries =>
      match find (fun kv => String.eqb (fst kv) key) entries with
      | Some kv => Ok (snd kv)
      | None => Raise (Exn "KeyError")
      end
  | ConfigStr _ => Raise (Exn "TypeError")
  end.

(** A record of the 'datasets' collection, as far as the file reads it. *)
Record PbRecord : Type := {
  id : string;
  images : list string
}.

(** The arguments of [get_list] (lines 195-202). *)
Record list_query : Type := {
  page : Z;
  per_page : Z;
  filter_ : string;
  sort : string
}.

(** What the sensor yields. *)
Inductive sensor_result : Type :=
| SkipReason (msg : string)
| RunRequest (run_key : string) (run_config : config).

(** The calls the sensor makes, and [str(e)] for the exceptions they raise. *)
Record Polling : Type := {
  admins_auth : result unit;
  get_list : list_query -> result (list PbRecord);
  exn_str : exn -> string
}.

(** The one-character string made of a double quote. *)
Definition dquote : string :=
  String (Ascii.Ascii false true false false false true false false) EmptyString.

Definition pending_query : list_query :=
  {| page := 1; per_page := 10;
     filter_ := ("status = " ++ dquote ++ "pending" ++ dquote)%string;
     sort := "created" |}.

(** Lines 214-220: the [run_config] of a request. *)
Definition run_config_for (record_id : string) : config :=
  ConfigDict [("ops",
    ConfigDict [("train_classifier_op",
      ConfigDict [("config",
        ConfigDict [("record_id", ConfigStr record_id)])])])].

(** Lines 185-226.  The generator is given by the list of what it yields:
    the only calls that can raise are made before the first [yield]. *)
Definition pocketbase_sensor (p : Polling) : list sensor_result :=
  match (_ <- admins_auth p ;; get_list p pending_query) with
  | Ok items =>
      match items with
      | [] => [SkipReason "No pending datasets found."]
      | _ => map (fun record =>
                let run_key := ("train_" ++ id record)%string in
                RunRequest run_key (run_config_for (id record)))
               items
      end
  | Raise e => [SkipReason ("Connection error: " ++ exn_str p e)%string]
  end.

(** Lines 56 and 61, [context.op_config["record_id"]], with the op
    configuration Dagster hands to the op named [op_name] of a job: the
    entry [run_config["ops"][op_name]["config"]].  Dagster checks the run
    configuration against [config_schema={"record_id": str}] before the op
    body runs, and refuses one that lacks that string. *)
Definition op_config_record_id (run_config : config) (op_name : string)
  : result string :=
  match (ops <- config_get "ops" run_config ;;
         op <- config_get op_name ops ;;
         op_config <- config_get "config" op ;;
         config_get "record_id" op_config) with
  | Ok (ConfigStr record_id) => Ok record_id
  | _ => Raise (Exn "DagsterInvalidConfigError")
  end.

(** Lines 178-180: the job runs its single op, [train_classifier_op], on the
    run configuration of the request that launched it. *)
Definition training_job (w : World) (run_config : config) : M unit :=
  record_id <~ lift (op_config_record_id run_config "train_classifier_op") ;;
  train_classifier_op w record_id.

(** ** Derived quantities used in the further statements *)

(** The bytes of the files the loop accepts, in order. *)
Fixpoint accepted_contents (w : World) (image_files : list (string * blob))
  : list blob :=
  match image_files with
  | [] => []
  | (_, content) :: rest =>
      match Image_open w content with
      | Ok img => if String.eqb (mode img) "RGBA"
                  then content :: accepted_contents w rest
                  else accepted_contents w rest
      | Raise _ => accepted_contents w rest
      end
  end.

(** The statuses sent to the sink, and the records they were sent for. *)
Definition statuses (t : list event) : list string :=
  flat_map (fun ev => match ev with
                      | PbUpdate _ body => [status body]
                      | _ => []
                      end) t.
Definition update_targets (t : list event) : list string :=
  flat_map (fun ev => match ev with
                      | PbUpdate record_id _ => [record_id]
                      | _ => []
                      end) t.

(** The sum of the bytes of band 0 over patch (i, j) of a raster. *)
Definition patch_byte_sum (img : PILImage) (i j : nat) : Z :=
  fold_right Z.add 0
    (map (fun a => fold_right Z.add 0
       (map (fun b => nth 0 (nth (j * 16 + b) (nth (i * 16 + a) (pixels img) []) []) 0)
            (seq 0 16)))
       (seq 0 16)).

(** The record a request asks to train, read the way the op reads it. *)
Definition requested_record (r : sensor_result) : result string :=
  match r with
  | RunRequest _ run_config => op_config_record_id run_config "train_classifier_op"
  | SkipReason _ => Raise (Exn "KeyError")
  end.

Definition request_key (r : sensor_result) : option string :=
  match r with
  | RunRequest run_key _ => Some run_key
  | SkipReason _ => None
  end.

(** ** Further concrete collaborators *)

Module Cases.

(** A 1x49 RGBA image: more than 48 times as high as it is wide. *)
Definition narrow : PILImage :=
  {| mode := "RGBA"; size := (1, 49);
     pixels := repeat [[0; 0; 0; 255]] 49 |}.

(** An RGBA image of height zero. *)
Definition flat : PILImage :=
  {| mode := "RGBA"; size := (5, 0); pixels := [] |}.

(** One opaque patch of a mask. *)
Definition opaque_patch : PILImage :=
  {| mode := "L"; size := (16, 16);
     pixels := repeat (repeat [255] 16) 16 |}.

(** The concrete world, knowing one more file. *)
Definition world (images : list string) : World :=
  {| pb_auth := Ok tt;
     pb_get_one := fun _ => Ok images;
     pb_update := fun _ _ => Ok tt;
     requests_get := fun filename => Ok filename;
     InferenceSession := Ok tt;
     ort_run := Demo.embed;
     Image_open := fun content =>
       if String.eqb content "narrow.png" then Ok narrow
       else Demo.open_by_name content;
     Image_load := fun _ => Ok tt;
     resizers := Demo.rz;
     LogisticRegression_fit := Demo.fit;
     to_onnx := Demo.convert |}.

(** A resizer that returns a grey RGB raster of the size asked for. *)
Definition grey_raster (tw th : Z) : result PILImage :=
  if (tw <=? 0) || (th <=? 0) then Raise ValueError
  else Ok {| mode := "RGB"; size := (tw, th);
             pixels := repeat (repeat [128; 128; 128] (Z.to_nat tw))
                              (Z.to_nat th) |}.

Definition grey_rz : Resizers :=
  {| Image_resize := fun _ wh => grey_raster (fst wh) (snd wh);
     TF_resize := fun _ hw => grey_raster (snd hw) (fst hw) |}.

(** A store with two pending records. *)
Definition two_pending : Polling :=
  {| admins_auth := Ok tt;
     get_list := fun _ => Ok [ {| id := "a1"; images := [] |};
                               {| id := "b2"; images := ["x.png"] |} ];
     exn_str := fun e => match e with Exn cls => cls end |}.

(** A store that is lost once the run has started: the download fails,
    and so does every status update after the first. *)
Definition sink_down (images : list string) : World :=
  {| pb_auth := Ok tt;
     pb_get_one := fun _ => Ok images;
     pb_update := fun _ body =>
       if String.eqb (status body) "training" then Ok tt
       else Raise (Exn "ClientResponseError");
     requests_get := fun _ => Raise (Exn "ConnectionError");
     InferenceSession := Ok tt;
     ort_run := Demo.embed;
     Image_open := Demo.open_by_name;
     Image_load := fun _ => Ok tt;
     resizers := Demo.rz;
     LogisticRegression_fit := Demo.fit;
     to_onnx := Demo.convert |}.

(** A store with no pending record. *)
Definition none_pending : Polling :=
  {| admins_auth := Ok tt;
     get_list := fun _ => Ok [];
     exn_str := fun e => match e with Exn cls => cls end |}.

End Cases.

(** * Properties *)

(** ** True division followed by [int] *)

Lemma round_up_multiple a b s q r :
  0 < s -> 0 < b -> a * 2 ^ s = q * b + r -> 0 <= r < b -> b <= 2 * r ->
  (q + 1) mod 2 ^ s = 0 -> 2 ^ (s + 1) <= b.
Proof.
  intros Hs Hb Hdiv Hr Hhalf Hmod.
  assert (Hp : 0 < 2 ^ s) by (apply Z.pow_pos_nonneg; lia).
  apply Z.mod_divide in Hmod; [| lia].
  destruct Hmod as [k Hk].
  assert (Ht : b - r = 2 ^ s * (k * b - a)) by nia.
  assert (0 < k * b - a) by nia.
  rewrite Z.pow_add_r by lia. change (2 ^ 1) with 2. nia.
Qed.

Lemma int_Qmake_nonneg m s :
  0 <= m -> 0 <= s -> int (Qmake m (Z.to_pos (2 ^ s))) = m / 2 ^ s.
Proof.
  intros Hm Hs. unfold int. cbn [Qnum Qden].
  assert (Hp : 0 < 2 ^ s) by (apply Z.pow_pos_nonneg; lia).
  rewrite Z2Pos.id by lia.
  apply Z.quot_div_nonneg; lia.
Qed.

(** For a numerator below [2^53] the rounding of the quotient never
    reaches the next integer: [int(a / b)] is the floor of the quotient. *)
Lemma true_divide_int a b :
  0 <= a < 2 ^ 53 -> 0 < b ->
  exists x, true_divide a b = Ok x /\ int x = a / b.
Proof.
  intros Ha Hb. unfold true_divide.
  destruct (Z.eqb_spec b 0) as [|_]; [lia|].
  destruct (Z.eqb_spec a 0) as [->|Ha0].
  { exists 0%Q. split; [reflexivity|]. now rewrite Z.div_0_l by lia. }
  rewrite (Z.abs_eq a), (Z.abs_eq b) by lia.
  rewrite (Z.sgn_pos a), (Z.sgn_pos b) by lia.
  set (d := Z.log2 a - Z.log2 b).
  set (q0 := Z.shiftl a (53 - d) / b).
  set (s := Z.min (if 2 ^ 53 <=? q0 then 52 - d else 53 - d) 1074).
  assert (Hla : Z.log2 a <= 52).
  { assert (Z.log2 a < 53) by (apply Z.log2_lt_pow2; lia). lia. }
  assert (Hlb : 0 <= Z.log2 b) by apply Z.log2_nonneg.
  assert (Hs : Z.min (Z.log2 b) 1074 <= s).
  { unfold s, d. destruct (2 ^ 53 <=? q0); lia. }
  assert (Hs0 : 0 <= s) by lia.
  destruct (Z.leb_spec 0 s) as [_|]; [|lia].
  assert (Hp : 0 < 2 ^ s) by (apply Z.pow_pos_nonneg; lia).
  set (q := a * 2 ^ s / b). set (r := (a * 2 ^ s) mod b).
  assert (Hdiv : a * 2 ^ s = q * b + r).
  { unfold q, r. rewrite (Z.mul_comm _ b). apply Z.div_mod. lia. }
  assert (Hr : 0 <= r < b) by (apply Z.mod_pos_bound; lia).
  assert (Hq : 0 <= q) by (apply Z.div_pos; nia).
  assert (Hfloor : q / 2 ^ s = a / b).
  { unfold q. rewrite Z.div_div by lia.
    apply Z.div_mul_cancel_r; lia. }
  eexists. split; [reflexivity|].
  change (1 * 1) with 1. rewrite Z.mul_1_l.
  destruct ((b <? 2 * r) || ((b =? 2 * r) && Z.odd q)) eqn:Hup.
  2:{ rewrite int_Qmake_nonneg by lia. exact Hfloor. }
  assert (Hhalf : b <= 2 * r).
  { apply orb_true_iff in Hup. destruct Hup as [H|H].
    - apply Z.ltb_lt in H. lia.
    - apply andb_true_iff in H. destruct H as [H _].
      apply Z.eqb_eq in H. lia. }
  rewrite int_Qmake_nonneg by lia. rewrite <- Hfloor.
  destruct (Z.eq_dec s 0) as [Hs0'|Hs0'].
  { (* no scaling: then [b = 1] and nothing is rounded *)
    assert (Z.log2 b <= 0) by lia.
    assert (b < 2 ^ 1) by (apply Z.log2_lt_pow2; lia).
    assert (Hb1 : b = 1) by lia.
    assert (r = 0) by (unfold r; rewrite Hb1; apply Z.mod_1_r). lia. }
  destruct (Z.eq_dec ((q + 1) mod 2 ^ s) 0) as [Hmul|Hmul].
  { (* a round-up onto a multiple of [2^s] needs a denominator above
       [2^s], which the scaling excludes *)
    exfalso.
    assert (Hbig : 2 ^ (s + 1) <= b)
      by (apply (round_up_multiple a b s q r); lia).
    assert (s + 1 <= Z.log2 b) by (apply Z.log2_le_pow2; lia).
    assert (Hs1074 : 1074 <= s) by lia.
    apply Z.mod_divide in Hmul; [|lia]. destruct Hmul as [k Hk].
    assert (0 < k) by nia.
    assert (2 ^ s <= q + 1) by nia.
    rewrite Z.pow_add_r in Hbig by lia. change (2 ^ 1) with 2 in Hbig.
    assert (2 ^ 53 <= 2 ^ s) by (apply Z.pow_le_mono_r; lia).
    nia. }
  (* otherwise [q] and [q + 1] have the same quotient by [2^s] *)
  rewrite (Z.div_mod q (2 ^ s)) at 1 by lia.
  assert (Hm : 0 <= q mod 2 ^ s < 2 ^ s) by (apply Z.mod_pos_bound; lia).
  assert (Hm1 : q mod 2 ^ s + 1 < 2 ^ s).
  { destruct (Z.eq_dec (q mod 2 ^ s + 1) (2 ^ s)) as [E|E]; [|lia].
    exfalso. apply Hmul.
    rewrite <- Zplus_mod_idemp_l, E. apply Z.mod_same. lia. }
  rewrite <- Z.add_assoc, Z.mul_comm, Z.div_add_l by lia.
  rewrite (Z.div_small (q mod 2 ^ s + 1)) by lia. lia.
Qed.

(** ** Patch geometry *)

Arguments true_divide : simpl never.

Lemma rows_floordiv : floordiv IMAGE_SIZE PATCH_SIZE = Ok 48.
Proof. reflexivity. Qed.

Lemma rows_true_divide :
  exists y, true_divide IMAGE_SIZE PATCH_SIZE = Ok y /\ int y = 48.
Proof. eexists. split; [vm_compute; reflexivity | reflexivity]. Qed.

Lemma target_size_agree (img mask : PILImage) :
  size img = size mask ->
  preprocess_target_size img IMAGE_SIZE PATCH_SIZE
  = mask_target_size mask IMAGE_SIZE PATCH_SIZE.
Proof.
  intros Hsize. unfold preprocess_target_size, mask_target_size.
  rewrite Hsize. destruct (size mask) as [w h].
  rewrite rows_floordiv.
  destruct rows_true_divide as (y & -> & Hy).
  unfold bind at 1 3. rewrite Hy. reflexivity.
Qed.

Lemma target_size_multiple (mask : PILImage) (th tw : Z) :
  mask_target_size mask IMAGE_SIZE PATCH_SIZE = Ok (th, tw) ->
  th = IMAGE_SIZE / PATCH_SIZE * PATCH_SIZE /\
  exists cols, tw = cols * PATCH_SIZE.
Proof.
  unfold mask_target_size. destruct (size mask) as [w h].
  destruct rows_true_divide as (y & -> & Hy).
  unfold bind at 1. rewrite Hy.
  destruct (true_divide (w * IMAGE_SIZE) (h * PATCH_SIZE)) as [x|e];
    cbn [bind]; [|discriminate].
  intros H. injection H as <- <-. split; [reflexivity|].
  now exists (int x).
Qed.

Lemma target_size_floor (mask : PILImage) (w h : Z) :
  size mask = (w, h) -> 0 < w -> 0 < h -> w * IMAGE_SIZE < 2 ^ 53 ->
  mask_target_size mask IMAGE_SIZE PATCH_SIZE
  = Ok (IMAGE_SIZE / PATCH_SIZE * PATCH_SIZE,
        (w * IMAGE_SIZE) / (h * PATCH_SIZE) * PATCH_SIZE).
Proof.
  intros Hsize Hw Hh Hbound. unfold mask_target_size. rewrite Hsize.
  destruct rows_true_divide as (y & -> & Hy).
  unfold bind at 1. rewrite Hy.
  destruct (true_divide_int (w * IMAGE_SIZE) (h * PATCH_SIZE))
    as (x & -> & Hx).
  - unfold IMAGE_SIZE in *. lia.
  - unfold PATCH_SIZE. lia.
  - cbn [bind]. rewrite Hx. reflexivity.
Qed.

(** C3. For an image and its mask of the same positive size, the target
    size computed by [preprocess_image] (rows by [//]) and the one computed
    by [resize_mask] (rows by [int(/)]) are the same result; when it is a
    size, both sides are multiples of the patch stride with rows = S // P,
    the image is resized by PIL to (cols*P, rows*P) in (width, height)
    order and the mask by torchvision to (rows*P, cols*P) in
    (height, width) order, so resizers that honour their contract return
    rasters of one size; and for widths with [w * S < 2^53] the size is
    [(S // P * P, (w*S) // (h*P) * P)]. *)
Theorem patch_grid_agrees (rz : Resizers) (img mask : PILImage) (w h : Z) :
  size img = (w, h) -> size mask = (w, h) -> 0 < w -> 0 < h ->
  preprocess_target_size img IMAGE_SIZE PATCH_SIZE
  = mask_target_size mask IMAGE_SIZE PATCH_SIZE /\
  (forall th tw,
     mask_target_size mask IMAGE_SIZE PATCH_SIZE = Ok (th, tw) ->
     exists rows cols,
       rows = IMAGE_SIZE / PATCH_SIZE /\
       th = rows * PATCH_SIZE /\ tw = cols * PATCH_SIZE /\
       th mod PATCH_SIZE = 0 /\ tw mod PATCH_SIZE = 0 /\
       preprocess_image rz img IMAGE_SIZE PATCH_SIZE
       = (resized_img <-
            Image_resize rz img (cols * PATCH_SIZE, rows * PATCH_SIZE) ;;
          Ok [transpose_201 (getbands (mode resized_img))
                (normalize (img_to_np resized_img)
                           IMAGENET_MEAN IMAGENET_STD)]) /\
       resize_mask rz mask IMAGE_SIZE PATCH_SIZE
       = (resized <-
            TF_resize rz mask (rows * PATCH_SIZE, cols * PATCH_SIZE) ;;
          Ok (to_tensor resized)) /\
       (resize_contract rz ->
        forall r1 r2,
          Image_resize rz img (cols * PATCH_SIZE, rows * PATCH_SIZE) = Ok r1 ->
          TF_resize rz mask (rows * PATCH_SIZE, cols * PATCH_SIZE) = Ok r2 ->
          size r1 = (cols * PATCH_SIZE, rows * PATCH_SIZE) /\
          size r2 = (cols * PATCH_SIZE, rows * PATCH_SIZE))) /\
  (w * IMAGE_SIZE < 2 ^ 53 ->
   mask_target_size mask IMAGE_SIZE PATCH_SIZE
   = Ok (IMAGE_SIZE / PATCH_SIZE * PATCH_SIZE,
         (w * IMAGE_SIZE) / (h * PATCH_SIZE) * PATCH_SIZE)).
Proof.
  intros Himg Hmask Hw Hh.
  assert (Hagree : preprocess_target_size img IMAGE_SIZE PATCH_SIZE
                   = mask_target_size mask IMAGE_SIZE PATCH_SIZE)
    by (apply target_size_agree; congruence).
  split; [exact Hagree|]. split.
  - intros th tw Ht.
    destruct (target_size_multiple mask th tw Ht) as (Hth & cols & Htw).
    exists (IMAGE_SIZE / PATCH_SIZE), cols.
    split; [reflexivity|]. split; [exact Hth|]. split; [exact Htw|].
    split; [rewrite Hth; apply Z.mod_mul; discriminate|].
    split; [rewrite Htw; apply Z.mod_mul; discriminate|].
    split; [|split].
    + unfold preprocess_image. rewrite Hagree, Ht. cbn [bind fst snd].
      rewrite Hth, Htw. reflexivity.
    + unfold resize_mask. rewrite Ht. cbn [bind].
      rewrite Hth, Htw. reflexivity.
    + intros [Hpil Htf] r1 r2 H1 H2. split.
      * apply (Hpil _ _ _ _ H1).
      * apply (Htf _ _ _ _ H2).
  - intros Hbound. now apply target_size_floor.
Qed.

(** ** Label quantizer *)

Section Quantizer.
Local Open Scope Q_scope.

Lemma qsum_cons (x : Q) (l : list Q) : qsum (x :: l) == x + qsum l.
Proof. unfold qsum. cbn [fold_right]. apply Qred_correct. Qed.

Lemma qsum_ext {A} (f g : A -> Q) (l : list A) :
  (forall x, In x l -> f x == g x) -> qsum (map f l) == qsum (map g l).
Proof.
  induction l as [|x l IH]; intros H; cbn [map].
  - reflexivity.
  - rewrite !qsum_cons.
    rewrite (H x (or_introl eq_refl)), IH; [reflexivity|].
    intros y Hy. apply H. now right.
Qed.

Lemma qsum_scale {A} (c : Q) (f : A -> Q) (l : list A) :
  qsum (map (fun x => c * f x) l) == c * qsum (map f l).
Proof.
  induction l as [|x l IH]; cbn [map].
  - unfold qsum. cbn [fold_right]. ring.
  - rewrite !qsum_cons, IH. ring.
Qed.

Lemma qsum_bounds {A} (f : A -> Q) (l : list A) (lo hi : Q) :
  (forall x, In x l -> lo <= f x <= hi) ->
  inject_Z (Z.of_nat (length l)) * lo <= qsum (map f l)
  <= inject_Z (Z.of_nat (length l)) * hi.
Proof.
  induction l as [|x l IH]; intros H.
  - unfold qsum. cbn [map fold_right length].
    change (inject_Z (Z.of_nat 0)) with 0. split; lra.
  - cbn [map length]. rewrite qsum_cons.
    rewrite Nat2Z.inj_succ. unfold Z.succ. rewrite inject_Z_plus.
    destruct (H x (or_introl eq_refl)).
    destruct IH; [intros y Hy; apply H; now right|].
    change (inject_Z 1) with 1%Q. split; lra.
Qed.

Lemma qsum_const {A} (f : A -> Q) (l : list A) (c : Q) :
  (forall x, In x l -> f x == c) ->
  qsum (map f l) == inject_Z (Z.of_nat (length l)) * c.
Proof.
  intros H. apply Qle_antisym; apply (qsum_bounds f l c c);
    intros x Hx; rewrite (H x Hx); split; apply Qle_refl.
Qed.

Lemma patch_weight (a b : nat) :
  (a < 16)%nat -> (b < 16)%nat ->
  nth b (nth a (weight patch_quant_filter) []) 0 = 1 / inject_Z (16 * 16).
Proof.
  intros Ha Hb. cbn [weight patch_quant_filter].
  change (Z.to_nat PATCH_SIZE) with 16%nat.
  rewrite nth_repeat_lt by assumption.
  rewrite nth_repeat_lt by assumption. reflexivity.
Qed.

(** The filter computes the mean of the patch. *)
Lemma conv_at_mean (plane : list (list Q)) (i j : nat) :
  conv_at patch_quant_filter plane i j == patch_mean 16 plane i j.
Proof.
  unfold conv_at, patch_mean.
  change (kernel_size patch_quant_filter) with 16%nat.
  change (stride patch_quant_filter) with 16%nat.
  set (c := 1 / inject_Z (16 * 16)).
  transitivity (qsum (map (fun a => c * qsum (map (fun b =>
      nth (j * 16 + b) (nth (i * 16 + a) plane []) 0) (seq 0 16))) (seq 0 16))).
  - apply qsum_ext. intros a Ha. apply in_seq in Ha.
    rewrite <- qsum_scale. apply qsum_ext. intros b Hb. apply in_seq in Hb.
    rewrite patch_weight by lia. reflexivity.
  - rewrite qsum_scale. unfold c.
    change (Z.of_nat (16 * 16)) with 256%Z. change (16 * 16)%Z with 256%Z.
    field.
Qed.

Lemma length_concat_uniform {A} (L : list (list A)) (n : nat) :
  Forall (fun l => length l = n) L -> length (concat L) = (length L * n)%nat.
Proof.
  induction 1 as [|l L Hl _ IH]; cbn [concat length]; [reflexivity|].
  rewrite length_app, IH, Hl. reflexivity.
Qed.

Lemma nth_concat_uniform {A} (L : list (list A)) (n i j : nat) (d : A) :
  Forall (fun l => length l = n) L -> (j < n)%nat ->
  nth (i * n + j) (concat L) d = nth j (nth i L []) d.
Proof.
  intros HL Hj. revert i. induction HL as [|l L Hl _ IH]; intros i.
  - cbn [concat]. destruct i; cbn [nth]; now destruct (_ + _)%nat, j.
  - cbn [concat]. destruct i as [|i].
    + cbn [nth Nat.mul Nat.add]. apply app_nth1. lia.
    + cbn [nth]. rewrite app_nth2 by (rewrite Hl; lia).
      rewrite <- IH. f_equal. rewrite Hl. lia.
Qed.

Lemma nth_plane_bounds (plane : list (list Q)) (r c : nat) :
  Forall (Forall (fun v => 0 <= v <= 1)) plane ->
  0 <= nth c (nth r plane []) 0 <= 1.
Proof.
  intros H.
  assert (Hrow : Forall (fun v => 0 <= v <= 1) (nth r plane [])).
  { destruct (nth_in_or_default r plane []) as [Hin| ->]; [|constructor].
    exact (proj1 (Forall_forall _ _) H _ Hin). }
  destruct (nth_in_or_default c (nth r plane []) 0) as [Hin| ->].
  - exact (proj1 (Forall_forall _ _) Hrow _ Hin).
  - split; lra.
Qed.

Lemma patch_mean_bounds (plane : list (list Q)) (i j : nat) :
  Forall (Forall (fun v => 0 <= v <= 1)) plane ->
  0 <= patch_mean 16 plane i j <= 1.
Proof.
  intros H. unfold patch_mean.
  set (inner := fun a : nat => qsum (map (fun b : nat =>
         nth (j * 16 + b) (nth (i * 16 + a) plane []) 0) (seq 0 16))).
  assert (Hinner : forall a, 0 <= inner a <= 16).
  { intros a.
    destruct (qsum_bounds (fun b : nat =>
         nth (j * 16 + b) (nth (i * 16 + a) plane []) 0) (seq 0 16) 0 1)
      as [Hlo Hhi].
    - intros b _. now apply nth_plane_bounds.
    - rewrite length_seq in Hlo, Hhi.
      change (inject_Z (Z.of_nat 16)) with 16 in Hlo, Hhi.
      unfold inner. split; lra. }
  destruct (qsum_bounds inner (seq 0 16) 0 16) as [Hlo Hhi].
  { intros a _. apply Hinner. }
  rewrite length_seq in Hlo, Hhi.
  change (inject_Z (Z.of_nat 16)) with 16 in Hlo, Hhi.
  change (inject_Z (Z.of_nat (16 * 16))) with 256.
  fold inner. unfold Qdiv. change (/ 256) with (1 # 256). split; lra.
Qed.

Lemma patch_mean_uniform (plane : list (list Q)) (i j : nat) (v : Q) :
  (forall a b, (a < 16)%nat -> (b < 16)%nat ->
     nth (j * 16 + b) (nth (i * 16 + a) plane []) 0 == v) ->
  patch_mean 16 plane i j == v.
Proof.
  intros H. unfold patch_mean.
  rewrite (qsum_const _ (seq 0 16) (16 * v)).
  - rewrite length_seq.
    change (inject_Z (Z.of_nat 16)) with 16.
    change (inject_Z (Z.of_nat (16 * 16))) with 256. field.
  - intros a Ha. apply in_seq in Ha.
    rewrite (qsum_const _ (seq 0 16) v).
    + rewrite length_seq. reflexivity.
    + intros b Hb. apply in_seq in Hb. apply H; lia.
Qed.

(** C5. On a mask plane of [rows*P] rows of [cols*P] values in [0, 1]
    (a whole, non-empty patch grid), the filter returns, flattened,
    exactly [rows*cols] labels in row-major patch order; the label of patch
    (i, j) is the arithmetic mean of its [P*P] pixels (equal to it, hence
    within 1e-5 of it), lies in [0, 1], and is 1 (respectively 0) when the
    pixels of the patch are all 1 (respectively 0). *)
Theorem label_quantizer_mean (rows cols : nat) (plane : list (list Q)) :
  (0 < rows)%nat -> (0 < cols)%nat ->
  length plane = (rows * Z.to_nat PATCH_SIZE)%nat ->
  Forall (fun row => length row = (cols * Z.to_nat PATCH_SIZE)%nat) plane ->
  Forall (Forall (fun v => 0 <= v <= 1)) plane ->
  exists quantized,
    conv2d patch_quant_filter [plane] = Ok quantized /\
    length (flatten3 quantized) = (rows * cols)%nat /\
    forall i j, (i < rows)%nat -> (j < cols)%nat ->
      let label := nth (i * cols + j) (flatten3 quantized) 0 in
      let mean := patch_mean (Z.to_nat PATCH_SIZE) plane i j in
      label == mean /\
      Qabs (label - mean) <= 1 # 100000 /\
      0 <= label <= 1 /\
      ((forall a b, (a < Z.to_nat PATCH_SIZE)%nat -> (b < Z.to_nat PATCH_SIZE)%nat ->
          nth (j * Z.to_nat PATCH_SIZE + b)
              (nth (i * Z.to_nat PATCH_SIZE + a) plane []) 0 == 1) ->
       label == 1) /\
      ((forall a b, (a < Z.to_nat PATCH_SIZE)%nat -> (b < Z.to_nat PATCH_SIZE)%nat ->
          nth (j * Z.to_nat PATCH_SIZE + b)
              (nth (i * Z.to_nat PATCH_SIZE + a) plane []) 0 == 0) ->
       label == 0).
Proof.
  change (Z.to_nat PATCH_SIZE) with 16%nat.
  intros Hrows Hcols HH HW Hrange.
  assert (Hhd : length (hd [] plane) = (cols * 16)%nat).
  { destruct plane as [|row plane]; [cbn in HH; lia|].
    now inversion HW. }
  unfold conv2d.
  change (kernel_size patch_quant_filter) with 16%nat.
  change (stride patch_quant_filter) with 16%nat.
  rewrite HH, Hhd.
  destruct (Nat.ltb_spec (rows * 16) 16); [lia|].
  destruct (Nat.ltb_spec (cols * 16) 16); [lia|].
  cbn [orb].
  assert (Hr : ((rows * 16 - 16) / 16 + 1 = rows)%nat).
  { replace (rows * 16 - 16)%nat with ((rows - 1) * 16)%nat by lia.
    rewrite Nat.div_mul by discriminate. lia. }
  assert (Hc : ((cols * 16 - 16) / 16 + 1 = cols)%nat).
  { replace (cols * 16 - 16)%nat with ((cols - 1) * 16)%nat by lia.
    rewrite Nat.div_mul by discriminate. lia. }
  rewrite Hr, Hc.
  set (grid := map (fun i => map (fun j => conv_at patch_quant_filter plane i j)
                                 (seq 0 cols)) (seq 0 rows)).
  exists [grid]. split; [reflexivity|].
  assert (Hgrid : Forall (fun l => length l = cols) grid).
  { unfold grid. apply Forall_forall. intros l Hl.
    apply in_map_iff in Hl. destruct Hl as (i & <- & _).
    now rewrite length_map, length_seq. }
  assert (Hflat : flatten3 [grid] = concat grid).
  { unfold flatten3. cbn [concat]. now rewrite app_nil_r. }
  rewrite Hflat. split.
  { rewrite (length_concat_uniform grid cols Hgrid).
    unfold grid. now rewrite length_map, length_seq. }
  intros i j Hi Hj. cbv zeta.
  rewrite (nth_concat_uniform grid cols i j 0 Hgrid Hj).
  assert (Hnth : nth j (nth i grid []) 0 = conv_at patch_quant_filter plane i j).
  { unfold grid.
    rewrite (nth_indep _ [] (map (fun j => conv_at patch_quant_filter plane 0 j) (seq 0 cols)))
      by (now rewrite length_map, length_seq).
    rewrite (map_nth (fun i => map (fun j => conv_at patch_quant_filter plane i j) (seq 0 cols))).
    rewrite seq_nth by assumption. cbn [Nat.add].
    rewrite (nth_indep _ 0 (conv_at patch_quant_filter plane i 0))
      by (now rewrite length_map, length_seq).
    rewrite (map_nth (fun j => conv_at patch_quant_filter plane i j)).
    now rewrite seq_nth by assumption. }
  rewrite Hnth.
  assert (Hmean := conv_at_mean plane i j).
  assert (Hb := patch_mean_bounds plane i j Hrange).
  split; [exact Hmean|]. split.
  { rewrite Hmean. setoid_replace (patch_mean 16 plane i j - patch_mean 16 plane i j) with 0 by ring.
    discriminate. }
  split; [rewrite Hmean; exact Hb|]. split.
  - intros Hone. rewrite Hmean. now apply patch_mean_uniform.
  - intros Hzero. rewrite Hmean. now apply patch_mean_uniform.
Qed.

End Quantizer.

(** ** Filtering and binarization *)

Section Filter.
Local Open Scope Q_scope.

Lemma Qlt_bool_iff (a b : Q) : Qlt_bool a b = true <-> a < b.
Proof.
  unfold Qlt_bool. rewrite negb_true_iff, <- not_true_iff_false, Qle_bool_iff.
  split; [apply Qnot_le_lt | apply Qlt_not_le].
Qed.

Lemma selected_cons (b : bool) (idx : list bool) :
  selected (b :: idx) = (if b then [0%nat] else []) ++ map S (selected idx).
Proof.
  unfold selected. cbn [length seq filter nth].
  rewrite <- seq_shift, filter_map_swap.
  destruct b; reflexivity.
Qed.

(** Indexing with a boolean mask returns the entries at the selected
    indices, in increasing order. *)
Lemma mask_index_selected {A} (a : list A) (idx : list bool) (d : A) :
  length idx = length a ->
  mask_index a idx = Ok (map (fun i => nth i a d) (selected idx)).
Proof.
  intros Hlen. unfold mask_index. rewrite Hlen, Nat.eqb_refl. f_equal.
  revert idx Hlen. induction a as [|x a IH]; intros [|b idx] Hlen;
    try discriminate; [reflexivity|].
  rewrite selected_cons, map_app, map_map. cbn [combine filter].
  injection Hlen as Hlen. specialize (IH idx Hlen).
  destruct b; cbn [snd map fst app nth]; now rewrite IH.
Qed.

Lemma selected_spec (idx : list bool) (i : nat) :
  In i (selected idx) <-> nth i idx false = true.
Proof.
  unfold selected. rewrite filter_In, in_seq. split; [tauto|].
  intros H. split; [|exact H]. split; [lia|].
  destruct (Nat.lt_ge_cases i (length idx)) as [|Hge]; [lia|].
  rewrite nth_overflow in H by exact Hge. discriminate.
Qed.

Lemma clean_mask_nth (ys : list Q) (i : nat) :
  nth i (clean_mask ys) false = true <->
  (i < length ys)%nat /\
  (nth i ys 0 < float32_0_01 \/ float32_0_99 < nth i ys 0).
Proof.
  unfold clean_mask.
  destruct (Nat.lt_ge_cases i (length ys)) as [Hlt|Hge].
  - rewrite (nth_indep _ false
               (Qlt_bool 0 float32_0_01 || Qlt_bool float32_0_99 0)%bool)
      by (now rewrite length_map).
    rewrite (map_nth (fun y => (Qlt_bool y float32_0_01 || Qlt_bool float32_0_99 y)%bool)).
    rewrite orb_true_iff, !Qlt_bool_iff. tauto.
  - rewrite nth_overflow by (now rewrite length_map). split; [discriminate|lia].
Qed.

(** C4. The Clean Subset of a soft-label table is exactly the set of
    indices whose label is below 0.01 or above 0.99, the two constants
    being the float32 values that line 125 compares the float32 labels
    with; the comparisons are strict, so a label equal to either boundary
    value, and every label in the closed interval between them, is
    discarded; and the filter keeps, from the labels and from the
    embeddings, the entries at those indices in order.  The two float32
    constants are the float32 values nearest to 1/100 and 99/100, which
    they enclose, so the exact decimals are discarded as well. *)
Theorem clean_subset_exact (ys : list Q) :
  (forall i, In i (clean_subset ys) <->
     (i < length ys)%nat /\
     (nth i ys 0 < float32_0_01 \/ float32_0_99 < nth i ys 0)) /\
  (forall i, (i < length ys)%nat ->
     float32_0_01 <= nth i ys 0 <= float32_0_99 -> ~ In i (clean_subset ys)) /\
  clean_mask [float32_0_01; float32_0_99] = [false; false] /\
  (forall i, (i < length ys)%nat ->
     1 # 100 <= nth i ys 0 <= 99 # 100 -> ~ In i (clean_subset ys)) /\
  clean_mask [1 # 100; 99 # 100] = [false; false] /\
  (float32_0_01 == 10737418 # 1073741824 /\
   float32_0_99 == 16609444 # 16777216 /\
   0 < (1 # 100) - float32_0_01 <= 1 # 2147483648 /\
   0 < float32_0_99 - (99 # 100) <= 1 # 33554432) /\
  mask_index ys (clean_mask ys)
  = Ok (map (fun i => nth i ys 0) (clean_subset ys)) /\
  (forall xs : ndarray2,
     length (arr_rows xs) = length ys ->
     mask_index2 xs (clean_mask ys)
     = Ok {| arr_cols := arr_cols xs;
             arr_rows := map (fun i => nth i (arr_rows xs) [])
                             (clean_subset ys) |}).
Proof.
  assert (Hiff : forall i, In i (clean_subset ys) <->
     (i < length ys)%nat /\
     (nth i ys 0 < float32_0_01 \/ float32_0_99 < nth i ys 0)).
  { intros i. unfold clean_subset. now rewrite selected_spec, clean_mask_nth. }
  split; [exact Hiff|].
  split; [|split; [reflexivity|split; [|split; [reflexivity|split; [|split]]]]].
  - intros i Hi [Hlo Hhi] Hin. apply Hiff in Hin. destruct Hin as [_ [H|H]].
    + apply (Qlt_not_le _ _ H Hlo).
    + apply (Qlt_not_le _ _ H Hhi).
  - intros i Hi [Hlo Hhi] Hin. apply Hiff in Hin.
    unfold float32_0_01, float32_0_99 in Hin. destruct Hin as [_ [H|H]]; lra.
  - unfold float32_0_01, float32_0_99.
    repeat split; try reflexivity; try (intros H; discriminate H).
  - apply mask_index_selected. unfold clean_mask. apply length_map.
  - intros xs Hlen. unfold mask_index2.
    rewrite (mask_index_selected (arr_rows xs) (clean_mask ys) [])
      by (unfold clean_mask; rewrite length_map; congruence).
    reflexivity.
Qed.

Lemma fit_labels_positive (y : Q) :
  (0 < y -> fit_labels [y] = [1%Z]) /\ (y <= 0 -> fit_labels [y] = [0%Z]).
Proof.
  unfold fit_labels. cbn [map]. split; intros H.
  - now rewrite (proj2 (Qlt_bool_iff 0 y) H).
  - destruct (Qlt_bool 0 y) eqn:E; [|reflexivity].
    apply Qlt_bool_iff in E. exfalso. apply (Qlt_not_le _ _ E H).
Qed.

Lemma binarize_half_spec (y : Q) :
  (1 # 2 < y -> binarize_half [y] = [1%Z]) /\
  (y <= 1 # 2 -> binarize_half [y] = [0%Z]).
Proof.
  unfold binarize_half. cbn [map]. split; intros H.
  - now rewrite (proj2 (Qlt_bool_iff (1 # 2) y) H).
  - destruct (Qlt_bool (1 # 2) y) eqn:E; [|reflexivity].
    apply Qlt_bool_iff in E. exfalso. apply (Qlt_not_le _ _ E H).
Qed.

(** The labels the classifier is fitted on differ from [label > 0.5]
    exactly on the soft labels in the interval (0, 0.5]. *)
Lemma fit_labels_vs_half (y : Q) :
  fit_labels [y] = binarize_half [y] <-> (y <= 0 \/ 1 # 2 < y).
Proof.
  destruct (Qlt_le_dec 0 y) as [Hpos|Hneg].
  - rewrite (proj1 (fit_labels_positive y) Hpos).
    destruct (Qlt_le_dec (1 # 2) y) as [Hhi|Hlo].
    + rewrite (proj1 (binarize_half_spec y) Hhi). tauto.
    + rewrite (proj2 (binarize_half_spec y) Hlo). split; [discriminate|].
      intros [H|H]; exfalso.
      * apply (Qlt_not_le _ _ Hpos H).
      * apply (Qlt_not_le _ _ H Hlo).
  - rewrite (proj2 (fit_labels_positive y) Hneg).
    rewrite (proj2 (binarize_half_spec y)) by lra. tauto.
Qed.

End Filter.

(** ** The aligner loop *)

Lemma mask_target_size_ext (a b : PILImage) (image_size patch_size : Z) :
  size a = size b ->
  mask_target_size a image_size patch_size
  = mask_target_size b image_size patch_size.
Proof. unfold mask_target_size. now intros ->. Qed.

Lemma hd_map_nil {A B} (f : list A -> list B) (l : list (list A)) :
  f [] = [] -> hd [] (map f l) = f (hd [] l).
Proof. intros Hf. destruct l; cbn [map hd]; [now rewrite Hf | reflexivity]. Qed.

Lemma hd_length_uniform {A} (l : list (list A)) (n : nat) :
  Forall (fun row => length row = n) l -> l <> [] -> length (hd [] l) = n.
Proof. intros H Hne. destruct l; [congruence|]. now inversion H. Qed.

Lemma conv2d_shape (plane : list (list Q)) (q : tensor3) :
  conv2d patch_quant_filter [plane] = Ok q ->
  (16 <= length plane)%nat /\ (16 <= length (hd [] plane))%nat /\
  length (flatten3 q)
  = (((length plane - 16) / 16 + 1) * ((length (hd [] plane) - 16) / 16 + 1))%nat.
Proof.
  unfold conv2d.
  change (kernel_size patch_quant_filter) with 16%nat.
  change (stride patch_quant_filter) with 16%nat.
  destruct (Nat.ltb_spec (length plane) 16); [discriminate|].
  destruct (Nat.ltb_spec (length (hd [] plane)) 16); [discriminate|].
  cbn [orb]. intros H1. injection H1 as <-.
  split; [assumption|]. split; [assumption|].
  unfold flatten3. cbn [concat]. rewrite app_nil_r.
  rewrite (length_concat_uniform _ ((length (hd [] plane) - 16) / 16 + 1)).
  - now rewrite length_map, length_seq.
  - apply Forall_forall. intros l Hl. apply in_map_iff in Hl.
    destruct Hl as (i & <- & _). now rewrite length_map, length_seq.
Qed.

Lemma to_tensor_L (r : PILImage) :
  mode r = "L" ->
  to_tensor r
  = [map (map (fun px => (inject_Z (nth 0 px 0%Z) / 255)%Q)) (pixels r)].
Proof. unfold to_tensor. now intros ->. Qed.

Lemma preprocess_shape (r : PILImage) (H W : nat) :
  mode r = "RGB" ->
  length (pixels r) = H ->
  Forall (fun row => length row = W) (pixels r) ->
  has_shape4 [transpose_201 (getbands (mode r))
                (normalize (img_to_np r) IMAGENET_MEAN IMAGENET_STD)]
             1 3 H W.
Proof.
  intros -> HH HW. split; [reflexivity|]. constructor; [|constructor].
  unfold transpose_201, normalize, img_to_np.
  change (getbands "RGB") with 3%nat.
  split; [now rewrite length_map, length_seq|].
  apply Forall_map. apply Forall_forall. intros c _.
  rewrite !length_map. split; [exact HH|].
  rewrite !Forall_map. revert HW. apply Forall_impl.
  intros row Hrow. now rewrite !length_map.
Qed.

Lemma shape4_of_has_shape4 (t : tensor4) (H W : nat) :
  (0 < H)%nat -> has_shape4 t 1 3 H W -> shape4 t = [1; 3; H; W]%nat.
Proof.
  intros HH [H0 Hall]. destruct t as [|a [|? ?]]; try discriminate H0.
  inversion Hall as [|? ? [H1 Hplanes] _]; subst.
  destruct a as [|plane [|? [|? [|? ?]]]]; try discriminate H1.
  inversion Hplanes as [|? ? [H2 Hrows] _]; subst.
  destruct plane as [|row plane]; [cbn in HH; lia|].
  inversion Hrows; subst. reflexivity.
Qed.

(** What one accepted image adds to the two tables, when the libraries
    honour their contracts. *)
Lemma extract_image_counts (w : World) (content : blob) (img : PILImage)
    (feats : ndarray2) (mask_quantized : list Q) :
  extractor_contract w -> resize_contract (resizers w) ->
  Image_open w content = Ok img ->
  extract_image w content = Ok (Some (feats, mask_quantized)) ->
  length (arr_rows feats) = patch_count img /\
  length mask_quantized = patch_count img.
Proof.
  intros Hext [Hpil Htf] Hopen. unfold extract_image. rewrite Hopen.
  cbn [bind]. destruct (negb (String.eqb (mode img) "RGBA")); [discriminate|].
  destruct (Image_load w img) as [u|e]; cbn [bind]; [|discriminate].
  unfold resize_mask, preprocess_image, patch_count, patch_grid.
  rewrite (target_size_agree (convert_RGB img) (split_last img)) by reflexivity.
  rewrite (mask_target_size_ext (split_last img) img) by reflexivity.
  destruct (mask_target_size img IMAGE_SIZE PATCH_SIZE) as [[th tw]|e] eqn:Ht;
    cbn [bind]; [|discriminate].
  destruct (target_size_multiple img th tw Ht) as (Hth & cols & Htw).
  change (IMAGE_SIZE / PATCH_SIZE * PATCH_SIZE) with 768 in Hth.
  change PATCH_SIZE with 16 in Htw |- *.
  destruct (TF_resize (resizers w) (split_last img) (th, tw)) as [r|e] eqn:Hr;
    cbn [bind]; [|discriminate].
  destruct (Htf _ _ _ _ Hr) as (Hmode & Hsize & Hlen & Hrows).
  rewrite Hsize in Hlen, Hrows. cbn [fst snd] in Hlen, Hrows.
  rewrite to_tensor_L by exact Hmode.
  set (plane := map (map (fun px => (inject_Z (nth 0 px 0%Z) / 255)%Q)) (pixels r)).
  destruct (conv2d patch_quant_filter [plane]) as [q|e] eqn:Hq;
    cbn [bind]; [|discriminate].
  destruct (conv2d_shape plane q Hq) as (HH & HW & Hflat).
  assert (Hplane : length plane = 768%nat).
  { unfold plane. rewrite length_map, Hlen, Hth. reflexivity. }
  assert (Hne : pixels r <> []).
  { intros E. rewrite E in Hlen. rewrite Hth in Hlen. discriminate. }
  assert (Hhd : length (hd [] plane) = Z.to_nat tw).
  { unfold plane. rewrite hd_map_nil by reflexivity. rewrite length_map.
    now apply hd_length_uniform. }
  assert (Hcols : 1 <= cols) by lia.
  assert (Hw : Z.to_nat tw = (Z.to_nat cols * 16)%nat) by lia.
  assert (Hgrid : Z.to_nat (th / 16 * (tw / 16)) = (48 * Z.to_nat cols)%nat).
  { rewrite Hth, Htw, Z.div_mul by discriminate.
    change (768 / 16) with 48. lia. }
  cbn [fst snd]. rewrite Hgrid.
  assert (Hcount : length (flatten3 q) = (48 * Z.to_nat cols)%nat).
  { rewrite Hflat, Hplane, Hhd, Hw.
    replace (Z.to_nat cols * 16 - 16)%nat with ((Z.to_nat cols - 1) * 16)%nat by lia.
    rewrite Nat.div_mul by discriminate.
    change ((768 - 16) / 16 + 1)%nat with 48%nat. lia. }
  destruct (Image_resize (resizers w) (convert_RGB img) (tw, th)) as [r'|e] eqn:Hr';
    cbn [bind]; [|discriminate].
  destruct (Hpil _ _ _ _ Hr') as (Hmode' & Hsize' & Hlen' & Hrows').
  rewrite Hsize' in Hlen', Hrows'. cbn [fst snd] in Hlen', Hrows'.
  set (t := [transpose_201 _ _]).
  destruct (ort_run w t) as [outputs|e] eqn:Hrun; cbn [bind]; [|discriminate].
  assert (Hshape : has_shape4 t 1 3 (48 * Z.to_nat 16)
                                 (Z.to_nat cols * Z.to_nat 16)).
  { unfold t. apply preprocess_shape; [exact Hmode'| |].
    - rewrite Hlen', Hth. reflexivity.
    - rewrite Hw in Hrows'. exact Hrows'. }
  destruct (Hext t 48%nat (Z.to_nat cols) outputs) as (feats0 & rest & -> & Hfeats);
    [lia | lia | exact Hshape | exact Hrun |].
  cbn [squeeze0 bind]. intros H. injection H as <- <-.
  split; [exact Hfeats | exact Hcount].
Qed.

Lemma extract_loop_app (w : World) (p s : list (string * blob))
    (xs : list ndarray2) (ys : list (list Q)) :
  extract_loop w (p ++ s) xs ys
  = (tables <- extract_loop w p xs ys ;;
     extract_loop w s (fst tables) (snd tables)).
Proof.
  revert xs ys. induction p as [|[name content] p IH]; intros xs ys.
  - reflexivity.
  - cbn [app extract_loop].
    destruct (extract_image w content) as [[[feats mq]|]|e]; cbn [bind];
      [apply IH | apply IH | reflexivity].
Qed.

Lemma total_rows_snoc (xs : list ndarray2) (feats : ndarray2) :
  total_rows (xs ++ [feats]) = (total_rows xs + length (arr_rows feats))%nat.
Proof.
  unfold total_rows. rewrite map_app, concat_app, length_app.
  cbn [map concat]. now rewrite app_nil_r.
Qed.

Lemma total_labels_snoc (ys : list (list Q)) (mq : list Q) :
  total_labels (ys ++ [mq]) = (total_labels ys + length mq)%nat.
Proof.
  unfold total_labels. rewrite concat_app, length_app.
  cbn [concat]. now rewrite app_nil_r.
Qed.

(** The loop invariant: both tables grow by the patch count of every
    accepted image. *)
Lemma extract_loop_invariant (w : World) :
  extractor_contract w -> resize_contract (resizers w) ->
  forall image_files xs ys xs' ys',
    extract_loop w image_files xs ys = Ok (xs', ys') ->
    total_rows xs'
    = (total_rows xs + cumulative_patch_count (accepted w image_files))%nat /\
    total_labels ys'
    = (total_labels ys + cumulative_patch_count (accepted w image_files))%nat.
Proof.
  intros Hext Hrz image_files.
  induction image_files as [|[name content] rest IH]; intros xs ys xs' ys' Hloop.
  - cbn in Hloop. injection Hloop as <- <-. cbn. lia.
  - cbn [extract_loop] in Hloop.
    destruct (extract_image w content) as [r|e] eqn:Hone; [|discriminate].
    cbn [bind] in Hloop. cbn [accepted].
    unfold extract_image in Hone.
    destruct (Image_open w content) as [img|e] eqn:Hopen; [|discriminate].
    fold (extract_image w content) in Hone.
    assert (Hone' : extract_image w content = Ok r).
    { unfold extract_image. rewrite Hopen. exact Hone. }
    cbn [bind] in Hone.
    destruct (String.eqb (mode img) "RGBA") eqn:Hmode; cbn [negb] in Hone.
    + destruct r as [[feats mq]|].
      * destruct (extract_image_counts w content img feats mq Hext Hrz Hopen Hone')
          as [Hf Hm].
        destruct (IH _ _ _ _ Hloop) as [IHx IHy].
        rewrite total_rows_snoc in IHx. rewrite total_labels_snoc in IHy.
        cbn [cumulative_patch_count fold_right].
        fold (cumulative_patch_count (accepted w rest)). lia.
      * exfalso. clear - Hone.
        repeat match type of Hone with
               | (bind ?c _) = _ => destruct c; cbn [bind] in Hone
               | match ?c with _ => _ end = _ => destruct c; cbn [bind] in Hone
               end; discriminate.
    + injection Hone as <-. apply (IH _ _ _ _ Hloop).
Qed.

(** C6. When the extractor and the resizers honour their shape
    contracts, then after any prefix of a batch the loop goes through, the
    embedding table and the soft-label table have the same number of rows,
    the cumulative patch count of the images accepted so far; and the two
    concatenated tables of the whole batch have equal length. *)
Theorem tables_stay_aligned (w : World) (done rest : list (string * blob))
    (xs : list ndarray2) (ys : list (list Q)) :
  extractor_contract w -> resize_contract (resizers w) ->
  extract_loop w (done ++ rest) [] [] = Ok (xs, ys) ->
  (exists xs0 ys0,
     extract_loop w done [] [] = Ok (xs0, ys0) /\
     total_rows xs0 = cumulative_patch_count (accepted w done) /\
     total_labels ys0 = cumulative_patch_count (accepted w done)) /\
  total_rows xs = cumulative_patch_count (accepted w (done ++ rest)) /\
  total_labels ys = cumulative_patch_count (accepted w (done ++ rest)) /\
  (forall X y, concatenate2 xs = Ok X -> concatenate1 ys = Ok y ->
     length (arr_rows X) = length y).
Proof.
  intros Hext Hrz Hloop.
  destruct (extract_loop_invariant w Hext Hrz _ _ _ _ _ Hloop) as [Hx Hy].
  cbn in Hx, Hy. split; [|split; [exact Hx|split; [exact Hy|]]].
  - rewrite extract_loop_app in Hloop.
    destruct (extract_loop w done [] []) as [[xs0 ys0]|e] eqn:Hdone;
      [|discriminate].
    exists xs0, ys0. split; [reflexivity|].
    apply (extract_loop_invariant w Hext Hrz _ _ _ _ _ Hdone).
  - intros X y HX Hy'.
    assert (length (arr_rows X) = total_rows xs).
    { unfold concatenate2 in HX. destruct xs as [|a xs1]; [discriminate|].
      destruct (forallb _ xs1); [|discriminate]. now injection HX as <-. }
    assert (length y = total_labels ys).
    { unfold concatenate1 in Hy'. destruct ys; [discriminate|].
      now injection Hy' as <-. }
    congruence.
Qed.

(** ** Images without an alpha channel *)

Lemma extract_image_skip (w : World) (content : blob) (img : PILImage) :
  Image_open w content = Ok img -> mode img <> "RGBA" ->
  extract_image w content = Ok None.
Proof.
  intros Hopen Hmode. unfold extract_image. rewrite Hopen. cbn [bind].
  destruct (String.eqb_spec (mode img) "RGBA"); [contradiction|reflexivity].
Qed.

Lemma extract_loop_skip (w : World) (name : string) (content : blob)
    (img : PILImage) (files1 files2 : list (string * blob))
    (xs : list ndarray2) (ys : list (list Q)) :
  Image_open w content = Ok img -> mode img <> "RGBA" ->
  extract_loop w (files1 ++ (name, content) :: files2) xs ys
  = extract_loop w (files1 ++ files2) xs ys.
Proof.
  intros Hopen Hmode. rewrite !extract_loop_app.
  destruct (extract_loop w files1 xs ys) as [[xs1 ys1]|e]; cbn [bind];
    [|reflexivity].
  cbn [extract_loop fst snd].
  now rewrite (extract_image_skip w content img Hopen Hmode).
Qed.

Lemma accepted_skip (w : World) (name : string) (content : blob)
    (img : PILImage) (files1 files2 : list (string * blob)) :
  Image_open w content = Ok img -> mode img <> "RGBA" ->
  accepted w (files1 ++ (name, content) :: files2) = accepted w (files1 ++ files2).
Proof.
  intros Hopen Hmode. induction files1 as [|[n c] files1 IH].
  - cbn [app accepted]. rewrite Hopen.
    destruct (String.eqb_spec (mode img) "RGBA"); [contradiction|reflexivity].
  - cbn [app accepted]. rewrite IH. reflexivity.
Qed.

Lemma download_images_app (w : World) (before after : list string) :
  download_images w (before ++ after)
  = (files1 <- download_images w before ;;
     files2 <- download_images w after ;;
     Ok (files1 ++ files2)).
Proof.
  induction before as [|f before IH].
  - cbn [app download_images bind]. now destruct (download_images w after).
  - cbn [app download_images].
    destruct (requests_get w f) as [c|e]; cbn [bind]; [|reflexivity].
    rewrite IH. destruct (download_images w before); cbn [bind]; [|reflexivity].
    now destruct (download_images w after).
Qed.

Lemma try_body_set_images (w : World) (l : list string) (record_id : string)
    (images : list string) (t : list event) :
  try_body (set_images w l) record_id images t = try_body w record_id images t.
Proof.
  assert (Hd : forall names,
            download_images (set_images w l) names = download_images w names).
  { induction names as [|f names IH]; [reflexivity|].
    cbn [download_images]. now rewrite IH. }
  assert (Hl : forall files xs ys,
            extract_loop (set_images w l) files xs ys = extract_loop w files xs ys).
  { induction files as [|[n c] files IH]; intros xs ys; [reflexivity|].
    cbn [extract_loop].
    change (extract_image (set_images w l) c) with (extract_image w c).
    destruct (extract_image w c) as [[[feats mq]|]|e]; cbn [bind];
      [apply IH | apply IH | reflexivity]. }
  unfold try_body, mbind, lift. rewrite Hd.
  destruct (download_images w images) as [files|e]; [|reflexivity].
  cbn [set_images InferenceSession].
  destruct (InferenceSession w); [|reflexivity].
  rewrite Hl. reflexivity.
Qed.

(** C8. An image that opens with a mode other than RGBA is passed over:
    with it or without it in the batch, at any position, the loop builds
    the same two tables from the same accepted images, and the run makes
    the same calls and ends in the same way; so a batch that succeeds
    without the image succeeds with it, on the other images only. *)
Theorem non_rgba_skipped (w : World) (record_id : string)
    (before after : list string) (filename : string) (content : blob)
    (img : PILImage) :
  requests_get w filename = Ok content ->
  Image_open w content = Ok img ->
  mode img <> "RGBA" ->
  (forall files1 files2 xs ys,
     extract_loop w (files1 ++ (filename, content) :: files2) xs ys
     = extract_loop w (files1 ++ files2) xs ys) /\
  (forall files1 files2,
     accepted w (files1 ++ (filename, content) :: files2)
     = accepted w (files1 ++ files2)) /\
  (forall t,
     try_body w record_id (before ++ filename :: after) t
     = try_body w record_id (before ++ after) t) /\
  (forall t,
     train_classifier_op (set_images w (before ++ filename :: after)) record_id t
     = train_classifier_op (set_images w (before ++ after)) record_id t).
Proof.
  intros Hget Hopen Hmode.
  assert (Hbody : forall t,
     try_body w record_id (before ++ filename :: after) t
     = try_body w record_id (before ++ after) t).
  { intros t. unfold try_body, mbind, lift.
    rewrite !download_images_app. cbn [download_images]. rewrite Hget.
    destruct (download_images w before) as [files1|e]; cbn [bind];
      [|reflexivity].
    destruct (download_images w after) as [files2|e]; cbn [bind];
      [|reflexivity].
    destruct (InferenceSession w); [|reflexivity].
    now rewrite (extract_loop_skip w filename content img files1 files2 [] []
                   Hopen Hmode). }
  split; [|split; [|split; [exact Hbody|]]].
  - intros. now apply (extract_loop_skip w filename content img).
  - intros. now apply (accepted_skip w filename content img).
  - intros t. unfold train_classifier_op, mbind, lift, call, try_except.
    cbn [set_images pb_auth pb_get_one pb_update].
    destruct (pb_auth w); [|reflexivity].
    destruct (pb_update w record_id training); [|reflexivity].
    rewrite !try_body_set_images. now rewrite Hbody.
Qed.

(** ** The runs of the op *)

Lemma try_body_run (w : World) (record_id : string) (images : list string)
    (t : list event) :
  exists evs,
    snd (try_body w record_id images t) = t ++ evs /\
    body_run w record_id (fst (try_body w record_id images t)) evs.
Proof.
  unfold try_body, mbind, lift, call.
  destruct (download_images w images) as [files|e];
    [|exists []; rewrite app_nil_r; split; [reflexivity|constructor]].
  destruct (InferenceSession w) as [u|e];
    [|exists []; rewrite app_nil_r; split; [reflexivity|constructor]].
  destruct (extract_loop w files [] []) as [tables|e];
    [|exists []; rewrite app_nil_r; split; [reflexivity|constructor]].
  destruct (concatenate2 (fst tables)) as [xs|e];
    [|exists []; rewrite app_nil_r; split; [reflexivity|constructor]].
  destruct (concatenate1 (snd tables)) as [ys|e];
    [|exists []; rewrite app_nil_r; split; [reflexivity|constructor]].
  destruct (mask_index2 xs (clean_mask ys)) as [xs_clean|e];
    [|exists []; rewrite app_nil_r; split; [reflexivity|constructor]].
  destruct (mask_index ys (clean_mask ys)) as [ys_clean|e];
    [|exists []; rewrite app_nil_r; split; [reflexivity|constructor]].
  fold (patch_features_type xs_clean).
  destruct (LogisticRegression_fit w xs_clean (fit_labels ys_clean))
    as [clf|e] eqn:Hfit.
  2:{ eexists. split; [reflexivity|]. now constructor. }
  destruct (to_onnx w clf (patch_features_type xs_clean) false 17)
    as [onx|e] eqn:Honx.
  2:{ eexists. split; [cbn [snd]; rewrite <- app_assoc; reflexivity|].
      now apply run_export_raises. }
  eexists. split; [cbn [snd]; rewrite <- !app_assoc; reflexivity|].
  cbn [fst]. now apply run_upload.
Qed.

Lemma train_classifier_op_run (w : World) (record_id : string)
    (t : list event) :
  exists evs,
    snd (train_classifier_op w record_id t) = t ++ evs /\
    op_run w record_id (fst (train_classifier_op w record_id t)) evs.
Proof.
  unfold train_classifier_op, mbind, lift, call, try_except, raise.
  destruct (pb_auth w) as [u|e];
    [|exists []; rewrite app_nil_r; split; [reflexivity|constructor]].
  destruct (pb_get_one w record_id) as [images|e];
    [|exists []; rewrite app_nil_r; split; [reflexivity|constructor]].
  destruct (pb_update w record_id training) as [u'|e] eqn:Htr.
  2:{ eexists. split; [reflexivity|]. now constructor. }
  destruct (try_body_run w record_id images (t ++ [PbUpdate record_id training]))
    as (evs & Htrace & Hrun).
  destruct (try_body w record_id images (t ++ [PbUpdate record_id training]))
    as [[[]|e] t'] eqn:Hbody; cbn [fst snd] in Htrace, Hrun; subst t'.
  - exists (PbUpdate record_id training :: evs). split.
    + cbn [snd]. now rewrite <- app_assoc.
    + now constructor.
  - exists (PbUpdate record_id training :: evs ++ [PbUpdate record_id failed]).
    split.
    + destruct (pb_update w record_id failed); cbn [snd];
        now rewrite <- !app_assoc.
    + destruct (pb_update w record_id failed) eqn:Hf; cbn [fst].
      * generalize (op_body_raises w record_id e evs Hrun).
        now rewrite Hf.
      * generalize (op_body_raises w record_id e evs Hrun).
        now rewrite Hf.
Qed.

Lemma last_status_snoc (t : list event) (record_id : string) (body : update_body) :
  last_status (t ++ [PbUpdate record_id body]) = Some (status body).
Proof.
  induction t as [|ev t IH]; [reflexivity|].
  cbn [app last_status]. now rewrite IH.
Qed.

Lemma body_run_ready (w : World) (record_id : string) (res : result unit)
    (evs : list event) (rid : string) (body : update_body) :
  body_run w record_id res evs ->
  In (PbUpdate rid body) evs ->
  exists X y clf onx,
    LogisticRegression_fit w X y = Ok clf /\
    to_onnx w clf (patch_features_type X) false 17 = Ok onx /\
    rid = record_id /\
    body = ready (SerializeToString onx) /\
    res = pb_update w record_id (ready (SerializeToString onx)) /\
    evs = [Fit X y; ToOnnx clf (patch_features_type X) false 17;
           PbUpdate record_id body].
Proof.
  intros Hrun Hin. destruct Hrun as [e|X y e Hfit|X y clf e Hfit Honx|X y clf onx Hfit Honx];
    cbn [In] in Hin.
  - contradiction.
  - destruct Hin as [H|[]]. discriminate.
  - destruct Hin as [H|[H|[]]]; discriminate.
  - destruct Hin as [H|[H|[H|[]]]]; try discriminate.
    injection H as <- <-. now exists X, y, clf, onx.
Qed.

(** C10, as the code has it.  When the [try] body raises [e], an instance
    of Exception, after the status was set to 'training', the op's last
    call is the update of the record to status 'failed', without a file;
    the op then raises [e] itself if that update returns, and the
    exception of the update if the update raises.  In every run the update
    to 'ready' is made at most once, for the record of the run, carries the
    file 'classifier.onnx' with the serialized model, and comes right
    after a fit and an export that both returned; and a run that raises
    never has 'ready' as the last status it sent. *)
Theorem failure_sets_failed (w : World) (record_id : string) (t : list event) :
  (forall images t' e,
     pb_auth w = Ok tt ->
     pb_get_one w record_id = Ok images ->
     pb_update w record_id {| status := "training"; classifier_file := None |}
     = Ok tt ->
     try_body w record_id images
       (t ++ [PbUpdate record_id
                {| status := "training"; classifier_file := None |}])
     = (Raise e, t') ->
     train_classifier_op w record_id t
     = (match pb_update w record_id
                {| status := "failed"; classifier_file := None |} with
        | Ok _ => Raise e
        | Raise e' => Raise e'
        end,
        t' ++ [PbUpdate record_id
                 {| status := "failed"; classifier_file := None |}])) /\
  exists evs,
    snd (train_classifier_op w record_id t) = t ++ evs /\
    (forall rid body,
       In (PbUpdate rid body) evs -> status body = "ready" ->
       exists X y clf onx,
         LogisticRegression_fit w X y = Ok clf /\
         to_onnx w clf (patch_features_type X) false 17 = Ok onx /\
         rid = record_id /\
         body = {| status := "ready";
                   classifier_file :=
                     Some ("classifier.onnx", SerializeToString onx) |} /\
         let upto_ready :=
           [PbUpdate record_id
              {| status := "training"; classifier_file := None |};
            Fit X y;
            ToOnnx clf (patch_features_type X) false 17;
            PbUpdate record_id body] in
         (evs = upto_ready \/
          evs = upto_ready
                ++ [PbUpdate record_id
                      {| status := "failed"; classifier_file := None |}])) /\
    (forall e,
       fst (train_classifier_op w record_id t) = Raise e ->
       last_status evs <> Some "ready").
Proof.
  split.
  - intros images t' e Hauth Hget Htr Hbody.
    change (pb_update w record_id training = Ok tt) in Htr.
    change (try_body w record_id images (t ++ [PbUpdate record_id training])
            = (Raise e, t')) in Hbody.
    unfold train_classifier_op, mbind, lift, call, try_except, raise.
    rewrite Hauth, Hget, Htr, Hbody.
    change {| status := "failed"; classifier_file := None |} with failed.
    now destruct (pb_update w record_id failed) as [[]|e'].
  - destruct (train_classifier_op_run w record_id t) as (evs & Htrace & Hrun).
    exists evs. split; [exact Htrace|].
    destruct Hrun as [e|e Htr|bevs Hbody|e bevs Hbody].
    + split; [intros rid body []|]. intros _ _. discriminate.
    + split; [|intros _ _; discriminate].
      intros rid body [H|[]] Hst. injection H as <- <-. discriminate.
    + split; [|intros e; discriminate].
      intros rid body [H|Hin] Hst; [injection H as <- <-; discriminate|].
      destruct (body_run_ready _ _ _ _ _ _ Hbody Hin)
        as (X & y & clf & onx & Hfit & Honx & Hrid & -> & _ & ->).
      exists X, y, clf, onx. cbv zeta.
      split; [exact Hfit|]. split; [exact Honx|]. split; [exact Hrid|].
      split; [reflexivity|]. left. reflexivity.
    + split.
      * intros rid body [H|Hin] Hst; [injection H as <- <-; discriminate|].
        apply in_app_or in Hin. destruct Hin as [Hin|[H|[]]];
          [|injection H as <- <-; discriminate].
        destruct (body_run_ready _ _ _ _ _ _ Hbody Hin)
          as (X & y & clf & onx & Hfit & Honx & Hrid & -> & _ & ->).
        exists X, y, clf, onx. cbv zeta.
        split; [exact Hfit|]. split; [exact Honx|]. split; [exact Hrid|].
        split; [reflexivity|]. right. reflexivity.
      * intros _ _.
        change (PbUpdate record_id training :: bevs ++ [PbUpdate record_id failed])
          with ((PbUpdate record_id training :: bevs) ++ [PbUpdate record_id failed]).
        rewrite last_status_snoc. discriminate.
Qed.

(** C9. Every export the op requests follows a fit that returned the
    classifier being exported, and asks the converter for exactly one
    input, named 'patch_features', of float type and shape
    [None, feature_dim] with [feature_dim] the second dimension of the table
    the classifier was fitted on, with the ZipMap disabled and opset 17; a
    converter that honours its arguments therefore returns a model that
    declares this single input, a tensor output and opset 17. *)
Theorem export_request (w : World) (record_id : string) (t : list event) :
  exists evs,
    snd (train_classifier_op w record_id t) = t ++ evs /\
    forall clf initial_types zipmap target_opset,
      In (ToOnnx clf initial_types zipmap target_opset) evs ->
      exists X y,
        In (Fit X y) evs /\
        LogisticRegression_fit w X y = Ok clf /\
        initial_types
        = [("patch_features",
            {| tensor_shape := [None; Some (arr_cols X)] |})] /\
        zipmap = false /\ target_opset = 17 /\
        (converter_contract w ->
         forall onx,
           to_onnx w clf initial_types zipmap target_opset = Ok onx ->
           graph_input onx
           = [("patch_features",
               {| tensor_shape := [None; Some (arr_cols X)] |})] /\
           zipmap_output onx = false /\
           opset_import onx = 17).
Proof.
  destruct (train_classifier_op_run w record_id t) as (evs & Htrace & Hrun).
  exists evs. split; [exact Htrace|].
  assert (Hbody : forall res bevs clf initial_types zipmap target_opset,
    body_run w record_id res bevs ->
    In (ToOnnx clf initial_types zipmap target_opset) bevs ->
    exists X y, In (Fit X y) bevs /\
      LogisticRegression_fit w X y = Ok clf /\
      initial_types = patch_features_type X /\
      zipmap = false /\ target_opset = 17).
  { intros res bevs clf it zm op Hb Hin.
    destruct Hb as [e|X y e Hfit|X y c e Hfit Honx|X y c onx Hfit Honx];
      cbn [In] in Hin.
    - contradiction.
    - destruct Hin as [H|[]]. discriminate.
    - destruct Hin as [H|[H|[]]]; [discriminate|].
      injection H as <- <- <- <-. exists X, y. cbn [In]. auto.
    - destruct Hin as [H|[H|[H|[]]]]; try discriminate.
      injection H as <- <- <- <-. exists X, y. cbn [In]. auto. }
  intros clf it zm op Hin.
  assert (Hfound : exists X y, In (Fit X y) evs /\
      LogisticRegression_fit w X y = Ok clf /\
      it = patch_features_type X /\ zm = false /\ op = 17).
  { destruct Hrun as [e|e Htr|bevs Hb|e bevs Hb]; cbn [In] in Hin.
    - contradiction.
    - destruct Hin as [H|[]]. discriminate.
    - destruct Hin as [H|Hin]; [discriminate|].
      destruct (Hbody _ _ _ _ _ _ Hb Hin) as (X & y & HF & Hrest).
      exists X, y. split; [now right | exact Hrest].
    - destruct Hin as [H|Hin]; [discriminate|].
      apply in_app_or in Hin. destruct Hin as [Hin|[H|[]]]; [|discriminate].
      destruct (Hbody _ _ _ _ _ _ Hb Hin) as (X & y & HF & Hrest).
      exists X, y. split; [right; apply in_or_app; now left | exact Hrest]. }
  destruct Hfound as (X & y & HF & Hfit & -> & -> & ->).
  exists X, y. repeat (split; [solve [auto]|]).
  intros Hconv onx Honx.
  destruct (Hconv _ _ _ _ _ Honx) as (Hin' & Hzm & Hop). auto.
Qed.

(** ** Normalization *)

Lemma nth_map_default {A B} (f : A -> B) (l : list A) (d : A) (d' : B) (i : nat) :
  f d = d' -> nth i (map f l) d' = f (nth i l d).
Proof. intros <-. apply map_nth. Qed.

Lemma nth_in_Forall {A} (P : A -> Prop) (l : list A) (i : nat) (d : A) :
  Forall P l -> (i < length l)%nat -> P (nth i l d).
Proof.
  intros H Hi. apply (proj1 (Forall_forall P l) H). now apply nth_In.
Qed.

(** C7. Given the RGB raster the resize returned, of [rows*P] rows of
    [cols*P] pixels of three bytes in [0, 255], [preprocess_image] returns a
    tensor of shape [1, 3, rows*P, cols*P] whose entry at channel [c], row
    [i], column [j] is [(p / 255 - mean_c) / std_c] for [p] the byte of
    band [c] of pixel (i, j), with mean (0.485, 0.456, 0.406) and std
    (0.229, 0.224, 0.225). *)
Theorem preprocess_image_normalized (rz : Resizers) (img_pil resized_img : PILImage)
    (rows cols : nat) :
  (0 < rows)%nat -> (0 < cols)%nat ->
  preprocess_target_size img_pil IMAGE_SIZE PATCH_SIZE
  = Ok (Z.of_nat rows * PATCH_SIZE, Z.of_nat cols * PATCH_SIZE) ->
  Image_resize rz img_pil (Z.of_nat cols * PATCH_SIZE, Z.of_nat rows * PATCH_SIZE)
  = Ok resized_img ->
  mode resized_img = "RGB" ->
  size resized_img = (Z.of_nat cols * PATCH_SIZE, Z.of_nat rows * PATCH_SIZE) ->
  wf_raster resized_img -> wf_pixels resized_img ->
  exists t,
    preprocess_image rz img_pil IMAGE_SIZE PATCH_SIZE = Ok t /\
    has_shape4 t 1 3 (rows * Z.to_nat PATCH_SIZE) (cols * Z.to_nat PATCH_SIZE) /\
    IMAGENET_MEAN = [485 # 1000; 456 # 1000; 406 # 1000]%Q /\
    IMAGENET_STD = [229 # 1000; 224 # 1000; 225 # 1000]%Q /\
    forall c i j,
      (c < 3)%nat -> (i < rows * Z.to_nat PATCH_SIZE)%nat ->
      (j < cols * Z.to_nat PATCH_SIZE)%nat ->
      let p := nth c (nth j (nth i (pixels resized_img) []) []) 0 in
      0 <= p <= 255 /\
      nth j (nth i (nth c (nth 0 t []) []) []) 0%Q
      = ((inject_Z p / 255 - nth c IMAGENET_MEAN 0) / nth c IMAGENET_STD 0)%Q.
Proof.
  intros Hrows Hcols Htarget Hresize Hmode Hsize [Hlen Hrow] Hpx.
  rewrite Hsize in Hlen, Hrow. cbn [fst snd] in Hlen, Hrow.
  change (Z.to_nat PATCH_SIZE) with 16%nat.
  assert (HH : length (pixels resized_img) = (rows * 16)%nat)
    by (rewrite Hlen; unfold PATCH_SIZE; lia).
  assert (HW : Z.to_nat (Z.of_nat cols * PATCH_SIZE) = (cols * 16)%nat)
    by (unfold PATCH_SIZE; lia).
  rewrite HW in Hrow.
  eexists. split.
  { unfold preprocess_image. rewrite Htarget. cbn [bind fst snd].
    rewrite Hresize. cbn [bind]. reflexivity. }
  split.
  { now apply preprocess_shape. }
  split; [reflexivity|]. split; [reflexivity|].
  intros c i j Hc Hi Hj. cbv zeta.
  set (row := nth i (pixels resized_img) []).
  set (px := nth j row []).
  assert (Hrowlen : length row = (cols * 16)%nat).
  { unfold row. apply (nth_in_Forall _ _ _ _ Hrow). lia. }
  assert (Hpxwf : length px = 3%nat /\ Forall (fun v => 0 <= v <= 255) px).
  { assert (Hr : Forall (fun px => length px = getbands (mode resized_img) /\
                           Forall (fun v => 0 <= v <= 255) px) row).
    { unfold row. apply (nth_in_Forall _ _ _ _ Hpx). lia. }
    rewrite Hmode in Hr. unfold px.
    apply (nth_in_Forall _ _ _ _ Hr). lia. }
  destruct Hpxwf as [Hpx3 Hbytes].
  split; [apply (nth_in_Forall _ _ _ _ Hbytes); lia|].
  rewrite Hmode. cbn [nth].
  unfold transpose_201, normalize, img_to_np.
  change (getbands "RGB") with 3%nat.
  change (seq 0 3) with [0; 1; 2]%nat. cbn [map].
  assert (Hentry : forall k : nat,
    nth j (nth i (map (map (fun q : list Q => nth k q 0%Q))
      (map (map (fun q : list Q =>
         map (fun '(v, (m, s)) => ((v - m) / s)%Q)
             (combine q (combine IMAGENET_MEAN IMAGENET_STD))))
        (map (map (map (fun v : Z => (inject_Z v / 255)%Q)))
             (pixels resized_img)))) []) 0%Q
    = nth k (map (fun '(v, (m, s)) => ((v - m) / s)%Q)
           (combine (map (fun v : Z => (inject_Z v / 255)%Q) px)
                    (combine IMAGENET_MEAN IMAGENET_STD))) 0%Q).
  { intros k.
    rewrite (nth_map_default _ _ [] [] i) by reflexivity.
    rewrite (nth_map_default _ _ [] 0%Q j) by (now destruct k).
    rewrite (nth_map_default _ _ [] [] i) by reflexivity.
    rewrite (nth_map_default _ _ [] [] j) by reflexivity.
    rewrite (nth_map_default _ _ [] [] i) by reflexivity.
    rewrite (nth_map_default _ _ [] [] j) by reflexivity.
    reflexivity. }
  destruct px as [|p0 [|p1 [|p2 [|p3 px]]]]; try discriminate Hpx3.
  destruct c as [|[|[|c]]]; [| | |lia]; cbn [nth]; rewrite Hentry; reflexivity.
Qed.

(** ** Runs without training data *)

Lemma mask_index_none {A} (a : list A) (idx : list bool) :
  length idx = length a -> selected idx = [] -> mask_index a idx = Ok [].
Proof.
  intros Hlen Hsel. destruct a as [|d a].
  - destruct idx; [reflexivity|discriminate].
  - rewrite (mask_index_selected (d :: a) idx d Hlen), Hsel. reflexivity.
Qed.

(** Without an accepted image the loop leaves its tables as they are: it
    returns them when every file opens, and raises the exception of the
    first file that [Image.open] refuses otherwise. *)
Lemma extract_loop_zero_accepted (w : World) (files : list (string * blob))
    (xs : list ndarray2) (ys : list (list Q)) :
  accepted w files = [] ->
  ((forall name content, In (name, content) files ->
      exists img, Image_open w content = Ok img) ->
   extract_loop w files xs ys = Ok (xs, ys)) /\
  (forall before name content rest e,
     files = before ++ (name, content) :: rest ->
     (forall n c, In (n, c) before -> exists img, Image_open w c = Ok img) ->
     Image_open w content = Raise e ->
     extract_loop w files xs ys = Raise e) /\
  (forall tables, extract_loop w files xs ys = Ok tables -> tables = (xs, ys)).
Proof.
  induction files as [|[n0 c0] files IH]; intros Hacc.
  - split; [reflexivity|]. split.
    + intros before name content rest e H. now destruct before.
    + intros tables H. now injection H as <-.
  - cbn [accepted] in Hacc. cbn [extract_loop].
    destruct (Image_open w c0) as [img|e0] eqn:Hopen.
    + destruct (String.eqb_spec (mode img) "RGBA") as [|Hmode];
        [discriminate Hacc|].
      rewrite (extract_image_skip w c0 img Hopen Hmode). cbn [bind].
      destruct (IH Hacc) as (IH1 & IH2 & IH3). split; [|split].
      * intros Hall. apply IH1. intros name content Hin.
        apply (Hall name content). now right.
      * intros [|b before] name content rest e Hfiles Hbefore Hraise.
        -- injection Hfiles as _ <- _. congruence.
        -- injection Hfiles as _ Hfiles.
           apply (IH2 before name content rest e Hfiles); [|exact Hraise].
           intros n c Hin. apply (Hbefore n c). now right.
      * exact IH3.
    + assert (Hone : extract_image w c0 = Raise e0)
        by (unfold extract_image; now rewrite Hopen).
      rewrite Hone. cbn [bind]. split; [|split].
      * intros Hall. destruct (Hall n0 c0 (or_introl eq_refl)) as [img Himg].
        congruence.
      * intros [|b before] name content rest e Hfiles Hbefore Hraise.
        -- injection Hfiles as _ <- _. congruence.
        -- injection Hfiles as <- _.
           destruct (Hbefore n0 c0 (or_introl eq_refl)) as [img Himg].
           congruence.
      * discriminate.
Qed.

(** C2, as the code has it.  In a run that gets as far as the loop and in
    which no image is accepted, the trainer is not called, the op's only
    calls to the sink are the updates to 'training' and to 'failed', and
    the exception that makes the run fail is the ValueError of
    [np.concatenate] on an empty list when every file opens, and the
    exception of [Image.open] on the first file it refuses otherwise; the
    op raises that exception once the update to 'failed' has returned, and
    the exception of that update if it raises.  When images are accepted
    but the Clean Subset is empty, the trainer is called on the empty
    table; if that call raises, the op sends 'failed' and raises the
    trainer's exception in the same way, and if it returns, the run goes
    on to the export. *)
Theorem no_training_data (w : World) (record_id : string)
    (images : list string) (files : list (string * blob)) (t : list event) :
  pb_auth w = Ok tt ->
  pb_get_one w record_id = Ok images ->
  pb_update w record_id {| status := "training"; classifier_file := None |}
  = Ok tt ->
  download_images w images = Ok files ->
  InferenceSession w = Ok tt ->
  let to_training :=
    PbUpdate record_id {| status := "training"; classifier_file := None |} in
  let to_failed :=
    PbUpdate record_id {| status := "failed"; classifier_file := None |} in
  let raised_after_failed (e : exn) : result unit :=
    match pb_update w record_id
            {| status := "failed"; classifier_file := None |} with
    | Ok _ => Raise e
    | Raise e' => Raise e'
    end in
  (accepted w files = [] ->
   ((forall name content, In (name, content) files ->
       exists img, Image_open w content = Ok img) ->
    train_classifier_op w record_id t
    = (raised_after_failed ValueError, t ++ [to_training; to_failed])) /\
   (forall before name content rest e,
      files = before ++ (name, content) :: rest ->
      (forall n c, In (n, c) before -> exists img, Image_open w c = Ok img) ->
      Image_open w content = Raise e ->
      train_classifier_op w record_id t
      = (raised_after_failed e, t ++ [to_training; to_failed])) /\
   snd (train_classifier_op w record_id t) = t ++ [to_training; to_failed]) /\
  (forall xs ys X y,
     extract_loop w files [] [] = Ok (xs, ys) ->
     concatenate2 xs = Ok X -> concatenate1 ys = Ok y ->
     length (arr_rows X) = length y ->
     clean_subset y = [] ->
     let empty := {| arr_cols := arr_cols X; arr_rows := [] |} in
     (exists rest,
        snd (train_classifier_op w record_id t)
        = t ++ [to_training; Fit empty []] ++ rest) /\
     (forall e, LogisticRegression_fit w empty [] = Raise e ->
        train_classifier_op w record_id t
        = (raised_after_failed e,
           t ++ [to_training; Fit empty []; to_failed])) /\
     (forall clf, LogisticRegression_fit w empty [] = Ok clf ->
        exists rest,
          snd (train_classifier_op w record_id t)
          = t ++ [to_training; Fit empty [];
                  ToOnnx clf
                    [("patch_features",
                      {| tensor_shape := [None; Some (arr_cols X)] |})]
                    false 17] ++ rest)).
Proof.
  intros Hauth Hget Htr Hdl Hsess. cbv zeta.
  change {| status := "training"; classifier_file := None |} with training in *.
  change {| status := "failed"; classifier_file := None |} with failed.
  assert (Hraise : forall e,
    extract_loop w files [] [] = Raise e \/
    (extract_loop w files [] [] = Ok ([], []) /\ e = ValueError) ->
    train_classifier_op w record_id t
    = (match pb_update w record_id failed with
       | Ok _ => Raise e
       | Raise e' => Raise e'
       end,
       t ++ [PbUpdate record_id training; PbUpdate record_id failed])).
  { intros e Hloop.
    unfold train_classifier_op, try_body, mbind, lift, call, try_except, raise.
    rewrite Hauth, Hget, Htr, Hdl, Hsess.
    destruct Hloop as [Hloop|[Hloop ->]]; rewrite Hloop; cbn [fst concatenate2];
      rewrite <- app_assoc; now destruct (pb_update w record_id failed) as [[]|e']. }
  split.
  - intros Hacc.
    destruct (extract_loop_zero_accepted w files [] [] Hacc)
      as (Hopens & Hbroken & Hsame).
    split; [|split].
    + intros Hall. apply Hraise. right. split; [now apply Hopens|reflexivity].
    + intros before name content rest e Hfiles Hbefore Hopen.
      apply Hraise. left. now apply (Hbroken before name content rest e).
    + destruct (extract_loop w files [] []) as [[xs ys]|e] eqn:Hloop.
      * rewrite (Hsame _ eq_refl) in Hraise.
        rewrite (Hraise ValueError) by (right; split; reflexivity). reflexivity.
      * rewrite (Hraise e) by (left; reflexivity). reflexivity.
  - intros xs ys X y Hloop HX Hy Hlen Hclean. cbv zeta.
    assert (Hmx : mask_index2 X (clean_mask y)
                  = Ok {| arr_cols := arr_cols X; arr_rows := [] |}).
    { unfold mask_index2. rewrite (mask_index_none (arr_rows X) (clean_mask y)).
      - reflexivity.
      - unfold clean_mask. rewrite length_map. congruence.
      - exact Hclean. }
    assert (Hmy : mask_index y (clean_mask y) = Ok []).
    { apply mask_index_none; [|exact Hclean].
      unfold clean_mask. apply length_map. }
    unfold train_classifier_op, try_body, mbind, lift, call, try_except, raise.
    rewrite Hauth, Hget, Htr, Hdl, Hsess, Hloop. cbn [fst snd].
    rewrite HX, Hy, Hmx, Hmy. cbn [fit_labels map arr_cols].
    split; [|split].
    + destruct (LogisticRegression_fit w _ []) as [clf|e].
      * destruct (to_onnx w clf _ false 17) as [onx|e].
        -- destruct (pb_update w record_id (ready (SerializeToString onx)));
             [|destruct (pb_update w record_id failed) as [[]|e']];
             cbn [snd]; eexists; rewrite <- !app_assoc; cbn [app]; reflexivity.
        -- destruct (pb_update w record_id failed) as [[]|e'];
             cbn [snd]; eexists; rewrite <- !app_assoc; cbn [app]; reflexivity.
      * destruct (pb_update w record_id failed) as [[]|e'];
          cbn [snd]; eexists; rewrite <- !app_assoc; cbn [app]; reflexivity.
    + intros e He. rewrite He. rewrite <- !app_assoc.
      now destruct (pb_update w record_id failed) as [[]|e'].
    + intros clf Hclf. rewrite Hclf.
      destruct (to_onnx w clf _ false 17) as [onx|e].
      * destruct (pb_update w record_id (ready (SerializeToString onx)));
          [|destruct (pb_update w record_id failed) as [[]|e']];
          cbn [snd]; eexists; rewrite <- !app_assoc; cbn [app]; reflexivity.
      * destruct (pb_update w record_id failed) as [[]|e'];
          cbn [snd]; eexists; rewrite <- !app_assoc; cbn [app]; reflexivity.
Qed.

(** ** The concrete world honours the contracts *)

Lemma demo_resize_contract : resize_contract Demo.rz.
Proof.
  assert (H : forall img tw th r, Demo.nearest img tw th = Ok r ->
            mode r = mode img /\ size r = (tw, th) /\ wf_raster r).
  { intros img tw th r. unfold Demo.nearest.
    destruct ((tw <=? 0) || (th <=? 0)); [discriminate|].
    destruct (size img) as [w0 h0]. intros E. injection E as <-.
    split; [reflexivity|]. split; [reflexivity|].
    unfold wf_raster, Demo.zrange. cbn [pixels size fst snd]. split.
    - now rewrite !length_map, length_seq.
    - apply Forall_forall. intros row Hrow. apply in_map_iff in Hrow.
      destruct Hrow as (i & <- & _). now rewrite !length_map, length_seq. }
  split.
  - intros img tw th r. apply H.
  - intros img th tw r. apply H.
Qed.

Lemma demo_extractor_contract (images : list string) :
  extractor_contract (Demo.world images).
Proof.
  intros t rows cols outputs Hrows Hcols Hshape. cbn [ort_run Demo.world].
  unfold Demo.embed.
  change (Z.to_nat PATCH_SIZE) with 16%nat in Hshape |- *.
  rewrite (shape4_of_has_shape4 t (rows * 16) (cols * 16)) by (lia || exact Hshape).
  rewrite !Nat.div_mul by discriminate.
  intros E. injection E as <-. eexists. exists []. split; [reflexivity|].
  unfold Demo.features. cbn [arr_rows]. now rewrite length_map, length_seq.
Qed.

Lemma demo_converter_contract (images : list string) :
  converter_contract (Demo.world images).
Proof.
  intros clf initial_types zipmap target_opset onx.
  cbn [to_onnx Demo.world]. unfold Demo.convert.
  intros E. injection E as <-. cbn. auto.
Qed.

(** ** Concrete runs *)

(** C1, on the code.  The almost transparent image: every soft label is
    below 0.01, so every patch is in the Clean Subset and [label > 0.5]
    puts every patch in class 0; the op fits the classifier with class 1
    for the 24 patches whose soft label is 1/255. *)
Theorem faint_alpha_fitted_as_foreground :
  exists ys,
    extract_loop (Demo.world ["faint.png"]) [("faint.png", "faint.png")] [] []
    = Ok ([Demo.features 48], [ys]) /\
    forallb (fun y => Qlt_bool y (1 # 100)) ys = true /\
    forallb (fun y => Qle_bool y (1 # 2)) ys = true /\
    mask_index ys (clean_mask ys) = Ok ys /\
    binarize_half ys = repeat 0 48 /\
    fit_labels ys = repeat 1 24 ++ repeat 0 24 /\
    snd (train_classifier_op (Demo.world ["faint.png"]) "rec1" [])
    = [PbUpdate "rec1" training;
       Fit (Demo.features 48) (repeat 1 24 ++ repeat 0 24);
       ToOnnx {| coef_ := [0; 0]%Q; intercept_ := 0%Q |}
              (patch_features_type (Demo.features 48)) false 17;
       PbUpdate "rec1" (ready "onnx")].
Proof.
  eexists. split; [vm_compute; reflexivity|].
  split; [vm_compute; reflexivity|].
  split; [vm_compute; reflexivity|].
  split; [vm_compute; reflexivity|].
  split; [vm_compute; reflexivity|].
  split; [vm_compute; reflexivity|].
  vm_compute. reflexivity.
Qed.

(** C2 as stated fails on the code.  A batch of one image without an alpha
    channel: no image is accepted and the run raises ValueError, which is
    not InsufficientTrainingData.  A batch whose mask is 128/255 everywhere:
    the Clean Subset is empty and the trainer is called, on an empty
    table. *)
Lemma no_InsufficientTrainingData :
  accepted (Demo.world ["opaque.jpg"]) [("opaque.jpg", "opaque.jpg")] = [] /\
  fst (train_classifier_op (Demo.world ["opaque.jpg"]) "rec1" [])
  = Raise ValueError /\
  fst (train_classifier_op (Demo.world ["opaque.jpg"]) "rec1" [])
  <> Raise (Exn "InsufficientTrainingData") /\
  (exists ys,
     extract_loop (Demo.world ["grey.png"]) [("grey.png", "grey.png")] [] []
     = Ok ([Demo.features 48], [ys]) /\
     clean_subset ys = []) /\
  fst (train_classifier_op (Demo.world ["grey.png"]) "rec1" [])
  <> Raise (Exn "InsufficientTrainingData") /\
  existsb is_fit (snd (train_classifier_op (Demo.world ["grey.png"]) "rec1" []))
  = true.
Proof.
  split; [reflexivity|].
  split; [vm_compute; reflexivity|].
  split; [vm_compute; discriminate|].
  split; [eexists; split; vm_compute; reflexivity|].
  split; [vm_compute; discriminate|].
  vm_compute. reflexivity.
Qed.

(** C10 as stated fails on the code.  The download raises ConnectionError
    inside the [try] body, and the update to 'failed' that the handler
    sends raises in its turn: the op raises the exception of the update,
    not the one that was raised in the body. *)
Lemma failed_update_replaces_exception :
  try_body (Cases.sink_down ["two_tone.png"]) "rec1" ["two_tone.png"]
    [PbUpdate "rec1" training]
  = (Raise (Exn "ConnectionError"), [PbUpdate "rec1" training]) /\
  train_classifier_op (Cases.sink_down ["two_tone.png"]) "rec1" []
  = (Raise (Exn "ClientResponseError"),
     [PbUpdate "rec1" training; PbUpdate "rec1" failed]) /\
  fst (train_classifier_op (Cases.sink_down ["two_tone.png"]) "rec1" [])
  <> Raise (Exn "ConnectionError").
Proof.
  split; [reflexivity|]. split; [reflexivity|].
  cbn. intros H. discriminate H.
Qed.

(** ** The statements at concrete inputs *)

Lemma patch_grid_agrees_witness :
  (size (split_last Demo.two_tone) = (1, 48) /\ 0 < 1 /\ 0 < 48) /\
  preprocess_target_size (convert_RGB Demo.two_tone) IMAGE_SIZE PATCH_SIZE
  = mask_target_size (split_last Demo.two_tone) IMAGE_SIZE PATCH_SIZE /\
  mask_target_size (split_last Demo.two_tone) IMAGE_SIZE PATCH_SIZE
  = Ok (768, 16).
Proof.
  split; [split; [reflexivity|lia]|].
  destruct (patch_grid_agrees Demo.rz (convert_RGB Demo.two_tone)
              (split_last Demo.two_tone) 1 48 eq_refl eq_refl)
    as (Hagree & _ & Hfloor); [lia|lia|].
  split; [exact Hagree|]. apply Hfloor. reflexivity.
Defined.

Lemma label_quantizer_mean_witness :
  exists quantized,
    conv2d patch_quant_filter [repeat (repeat 1%Q 16) 16] = Ok quantized /\
    length (flatten3 quantized) = 1%nat /\
    (nth 0 (flatten3 quantized) 0 == 1)%Q.
Proof.
  destruct (label_quantizer_mean 1 1 (repeat (repeat 1%Q 16) 16))
    as (quantized & Hq & Hlen & Hall).
  - lia.
  - lia.
  - reflexivity.
  - apply Forall_forall. intros row Hrow.
    apply repeat_spec in Hrow. now subst row.
  - apply Forall_forall. intros row Hrow.
    apply repeat_spec in Hrow. subst row.
    apply Forall_forall. intros v Hv. apply repeat_spec in Hv. subst v.
    split; discriminate.
  - exists quantized. split; [exact Hq|]. split; [exact Hlen|].
    destruct (Hall 0%nat 0%nat) as (_ & _ & _ & Hone & _); [lia|lia|].
    apply Hone. intros a b Ha Hb.
    change (Z.to_nat PATCH_SIZE) with 16%nat in Ha, Hb |- *.
    cbn [Nat.mul Nat.add].
    rewrite (nth_repeat_lt _ _ Ha), (nth_repeat_lt _ _ Hb).
    reflexivity.
Defined.

Lemma clean_subset_exact_witness :
  In 0%nat (clean_subset [1 # 200; float32_0_01; 1 # 2; float32_0_99; 1]%Q) /\
  ~ In 1%nat (clean_subset [1 # 200; float32_0_01; 1 # 2; float32_0_99; 1]%Q) /\
  ~ In 3%nat (clean_subset [1 # 200; float32_0_01; 1 # 2; float32_0_99; 1]%Q) /\
  In 4%nat (clean_subset [1 # 200; float32_0_01; 1 # 2; float32_0_99; 1]%Q).
Proof.
  destruct (clean_subset_exact [1 # 200; float32_0_01; 1 # 2; float32_0_99; 1]%Q)
    as (Hiff & Hout & _).
  split; [|split; [|split]].
  - apply Hiff. split; [cbn; lia|]. left. reflexivity.
  - apply Hout; [cbn; lia|]. split; discriminate.
  - apply Hout; [cbn; lia|]. split; discriminate.
  - apply Hiff. split; [cbn; lia|]. right. reflexivity.
Defined.

Lemma tables_stay_aligned_witness :
  extract_loop (Demo.world [])
    ([("two_tone.png", "two_tone.png")] ++ [("opaque.jpg", "opaque.jpg")])
    [] [] = Ok ([Demo.features 48], [repeat 1%Q 24 ++ repeat 0%Q 24]) /\
  total_rows [Demo.features 48] = 48%nat /\
  total_labels [repeat 1%Q 24 ++ repeat 0%Q 24] = 48%nat.
Proof.
  assert (Hloop : extract_loop (Demo.world [])
            ([("two_tone.png", "two_tone.png")] ++ [("opaque.jpg", "opaque.jpg")])
            [] [] = Ok ([Demo.features 48], [repeat 1%Q 24 ++ repeat 0%Q 24]))
    by (vm_compute; reflexivity).
  split; [exact Hloop|].
  destruct (tables_stay_aligned (Demo.world []) _ _ _ _
              (demo_extractor_contract []) demo_resize_contract Hloop)
    as (_ & Hx & Hy & _).
  split; [exact Hx | exact Hy].
Defined.

Lemma wf_pixels_check (img : PILImage) :
  forallb (forallb (fun px =>
     Nat.eqb (length px) (getbands (mode img)) &&
     forallb (fun v => (0 <=? v) && (v <=? 255)) px)) (pixels img) = true ->
  wf_pixels img.
Proof.
  intros H. unfold wf_pixels.
  apply Forall_forall. intros row Hrow.
  apply Forall_forall. intros px Hpx.
  rewrite forallb_forall in H. specialize (H row Hrow).
  rewrite forallb_forall in H. specialize (H px Hpx).
  apply andb_true_iff in H. destruct H as [Hlen Hv].
  split; [now apply Nat.eqb_eq|].
  apply Forall_forall. intros v Hin.
  rewrite forallb_forall in Hv. specialize (Hv v Hin).
  apply andb_true_iff in Hv. destruct Hv as [H0 H255].
  apply Z.leb_le in H0. apply Z.leb_le in H255. lia.
Qed.

Lemma preprocess_image_normalized_witness :
  exists t,
    preprocess_image Demo.rz (convert_RGB Demo.two_tone) IMAGE_SIZE PATCH_SIZE
    = Ok t /\
    has_shape4 t 1 3 768 16 /\
    nth 0 (nth 0 (nth 0 (nth 0 t []) []) []) 0%Q
    = ((inject_Z 10 / 255 - (485 # 1000)) / (229 # 1000))%Q.
Proof.
  assert (Hresize : Image_resize Demo.rz (convert_RGB Demo.two_tone)
                      (Z.of_nat 1 * PATCH_SIZE, Z.of_nat 48 * PATCH_SIZE)
                    = Ok Demo.two_tone_resized)
    by (vm_compute; reflexivity).
  destruct (proj1 demo_resize_contract _ _ _ _ Hresize) as (_ & _ & Hwf).
  destruct (preprocess_image_normalized Demo.rz (convert_RGB Demo.two_tone)
              Demo.two_tone_resized 48 1) as (t & Ht & Hshape & _ & _ & Hval);
    [lia | lia | vm_compute; reflexivity | exact Hresize | reflexivity
    | reflexivity | exact Hwf
    | apply wf_pixels_check; vm_compute; reflexivity |].
  exists t. split; [exact Ht|]. split; [exact Hshape|].
  destruct (Hval 0%nat 0%nat 0%nat) as [_ Hentry];
    [lia | cbn; lia | cbn; lia |].
  exact Hentry.
Defined.

Lemma non_rgba_skipped_witness :
  train_classifier_op
    (set_images (Demo.world [])
       (["two_tone.png"; "faint.png"] ++ "opaque.jpg" :: ["grey.png"; "solid.png"]))
    "rec1" []
  = train_classifier_op
      (set_images (Demo.world [])
         (["two_tone.png"; "faint.png"] ++ ["grey.png"; "solid.png"]))
      "rec1" [] /\
  fst (train_classifier_op
         (set_images (Demo.world [])
            (["two_tone.png"; "faint.png"] ++ ["grey.png"; "solid.png"]))
         "rec1" []) = Ok tt.
Proof.
  split.
  - refine (proj2 (proj2 (proj2
      (non_rgba_skipped (Demo.world []) "rec1" ["two_tone.png"; "faint.png"]
         ["grey.png"; "solid.png"] "opaque.jpg" "opaque.jpg" Demo.opaque
         eq_refl eq_refl _))) []).
    intros H. discriminate H.
  - vm_compute. reflexivity.
Defined.

Lemma export_request_witness :
  snd (train_classifier_op (Demo.world ["two_tone.png"]) "rec1" [])
  = [PbUpdate "rec1" training;
     Fit (Demo.features 48) (repeat 1 24 ++ repeat 0 24);
     ToOnnx {| coef_ := [0; 0]%Q; intercept_ := 0%Q |}
            [("patch_features", {| tensor_shape := [None; Some 2%nat] |})]
            false 17;
     PbUpdate "rec1" (ready "onnx")] /\
  exists onx,
    to_onnx (Demo.world ["two_tone.png"])
      {| coef_ := [0; 0]%Q; intercept_ := 0%Q |}
      [("patch_features", {| tensor_shape := [None; Some 2%nat] |})]
      false 17 = Ok onx /\
    graph_input onx
    = [("patch_features", {| tensor_shape := [None; Some 2%nat] |})] /\
    zipmap_output onx = false /\ opset_import onx = 17.
Proof.
  assert (Hrun : snd (train_classifier_op (Demo.world ["two_tone.png"]) "rec1" [])
    = [PbUpdate "rec1" training;
       Fit (Demo.features 48) (repeat 1 24 ++ repeat 0 24);
       ToOnnx {| coef_ := [0; 0]%Q; intercept_ := 0%Q |}
              [("patch_features", {| tensor_shape := [None; Some 2%nat] |})]
              false 17;
       PbUpdate "rec1" (ready "onnx")])
    by (vm_compute; reflexivity).
  split; [exact Hrun|].
  destruct (export_request (Demo.world ["two_tone.png"]) "rec1" [])
    as (evs & Htrace & Hexport).
  rewrite Hrun in Htrace. cbn [app] in Htrace. subst evs.
  destruct (Hexport {| coef_ := [0; 0]%Q; intercept_ := 0%Q |}
              [("patch_features", {| tensor_shape := [None; Some 2%nat] |})]
              false 17)
    as (X & y & _ & _ & Htypes & _ & _ & Hmodel).
  { right. right. left. reflexivity. }
  eexists. split; [reflexivity|].
  destruct (Hmodel (demo_converter_contract _) _ eq_refl) as (Hin & Hzm & Hop).
  rewrite <- Htypes in Hin.
  split; [exact Hin|]. split; [exact Hzm | exact Hop].
Defined.

Lemma failure_sets_failed_witness :
  train_classifier_op (Demo.offline ["two_tone.png"]) "rec1" []
  = (Raise (Exn "ConnectionError"),
     [PbUpdate "rec1" {| status := "training"; classifier_file := None |};
      PbUpdate "rec1" {| status := "failed"; classifier_file := None |}]) /\
  train_classifier_op (Cases.sink_down ["two_tone.png"]) "rec1" []
  = (Raise (Exn "ClientResponseError"),
     [PbUpdate "rec1" {| status := "training"; classifier_file := None |};
      PbUpdate "rec1" {| status := "failed"; classifier_file := None |}]).
Proof.
  split.
  - destruct (failure_sets_failed (Demo.offline ["two_tone.png"]) "rec1" [])
      as [Hfail _].
    exact (Hfail ["two_tone.png"] [PbUpdate "rec1" training]
             (Exn "ConnectionError") eq_refl eq_refl eq_refl eq_refl).
  - destruct (failure_sets_failed (Cases.sink_down ["two_tone.png"]) "rec1" [])
      as [Hfail _].
    exact (Hfail ["two_tone.png"] [PbUpdate "rec1" training]
             (Exn "ConnectionError") eq_refl eq_refl eq_refl eq_refl).
Defined.

Lemma no_training_data_witness :
  train_classifier_op (Demo.world ["opaque.jpg"]) "rec1" []
  = (Raise ValueError,
     [PbUpdate "rec1" {| status := "training"; classifier_file := None |};
      PbUpdate "rec1" {| status := "failed"; classifier_file := None |}]) /\
  train_classifier_op (Demo.world ["opaque.jpg"; "broken.bin"]) "rec1" []
  = (Raise (Exn "UnidentifiedImageError"),
     [PbUpdate "rec1" {| status := "training"; classifier_file := None |};
      PbUpdate "rec1" {| status := "failed"; classifier_file := None |}]) /\
  train_classifier_op (Demo.world ["grey.png"]) "rec1" []
  = (Raise ValueError,
     [PbUpdate "rec1" {| status := "training"; classifier_file := None |};
      Fit {| arr_cols := 2; arr_rows := [] |} [];
      PbUpdate "rec1" {| status := "failed"; classifier_file := None |}]).
Proof.
  split; [|split].
  - destruct (no_training_data (Demo.world ["opaque.jpg"]) "rec1"
                ["opaque.jpg"] [("opaque.jpg", "opaque.jpg")] []
                eq_refl eq_refl eq_refl eq_refl eq_refl) as [Hzero _].
    destruct (Hzero eq_refl) as (Hopens & _ & _).
    apply Hopens. intros name content [H|[]]. injection H as <- <-.
    now exists Demo.opaque.
  - destruct (no_training_data (Demo.world ["opaque.jpg"; "broken.bin"]) "rec1"
                ["opaque.jpg"; "broken.bin"]
                [("opaque.jpg", "opaque.jpg"); ("broken.bin", "broken.bin")] []
                eq_refl eq_refl eq_refl eq_refl eq_refl) as [Hzero _].
    destruct (Hzero eq_refl) as (_ & Hbroken & _).
    apply (Hbroken [("opaque.jpg", "opaque.jpg")] "broken.bin" "broken.bin" []
             (Exn "UnidentifiedImageError") eq_refl); [|reflexivity].
    intros n c [H|[]]. injection H as <- <-. now exists Demo.opaque.
  - destruct (no_training_data (Demo.world ["grey.png"]) "rec1"
                ["grey.png"] [("grey.png", "grey.png")] []
                eq_refl eq_refl eq_refl eq_refl eq_refl) as [_ Hempty].
    assert (Hloop : extract_loop (Demo.world ["grey.png"])
                      [("grey.png", "grey.png")] [] []
                    = Ok ([Demo.features 48], [repeat (128 # 255)%Q 48]))
      by (vm_compute; reflexivity).
    destruct (Hempty _ _ _ _ Hloop eq_refl eq_refl) as (_ & Hraise & _).
    + vm_compute. reflexivity.
    + vm_compute. reflexivity.
    + apply (Hraise ValueError). reflexivity.
Defined.

(** * Further properties of the code *)

(** ** Patch geometry for any parameters *)

(** X1. [preprocess_image] and [resize_mask] take the target size and the
    patch stride as parameters.  For every non-negative target size and
    positive stride, and every image whose height is positive and whose
    width times the target size stays below [2^53], the two functions
    compute the same target size; its height is the largest multiple of
    the stride that does not exceed the target size, and its width is the
    stride times the floor of [(w * image_size) / (h * patch_size)]. *)
Theorem target_size_for_parameters (img mask : PILImage)
    (w h image_size patch_size : Z) :
  size img = (w, h) -> size mask = (w, h) ->
  0 <= image_size < 2 ^ 53 -> 0 < patch_size ->
  0 <= w -> w * image_size < 2 ^ 53 -> 0 < h ->
  let th := image_size / patch_size * patch_size in
  let tw := (w * image_size) / (h * patch_size) * patch_size in
  preprocess_target_size img image_size patch_size = Ok (th, tw) /\
  mask_target_size mask image_size patch_size = Ok (th, tw) /\
  th <= image_size < th + patch_size /\
  0 <= tw.
Proof.
  intros Himg Hmask HS HP Hw Hbound Hh. cbv zeta.
  destruct (true_divide_int image_size patch_size HS HP) as (y & Hy & Hyi).
  destruct (true_divide_int (w * image_size) (h * patch_size))
    as (x & Hx & Hxi); [nia | nia |].
  split; [|split; [|split]].
  - unfold preprocess_target_size, floordiv. rewrite Himg.
    destruct (Z.eqb_spec patch_size 0); [lia|].
    cbn [bind]. rewrite Hx. cbn [bind]. now rewrite Hxi.
  - unfold mask_target_size. rewrite Hmask, Hy. cbn [bind].
    rewrite Hx. cbn [bind]. now rewrite Hyi, Hxi.
  - pose proof (Z.mul_div_le image_size patch_size HP).
    pose proof (Z.mul_succ_div_gt image_size patch_size HP).
    split; nia.
  - apply Z.mul_nonneg_nonneg; [|lia].
    apply Z.div_pos; nia.
Qed.

Lemma mask_target_size_defaults (mask : PILImage) (w h : Z) :
  size mask = (w, h) -> 0 <= w -> 0 < h -> w * IMAGE_SIZE < 2 ^ 53 ->
  mask_target_size mask IMAGE_SIZE PATCH_SIZE = Ok (48 * 16, 48 * w / h * 16).
Proof.
  intros Hsize Hw Hh Hbound. unfold mask_target_size. rewrite Hsize.
  destruct rows_true_divide as (y & -> & Hy).
  unfold bind at 1. rewrite Hy.
  destruct (true_divide_int (w * IMAGE_SIZE) (h * PATCH_SIZE))
    as (x & -> & Hx); [unfold IMAGE_SIZE in *; lia | unfold PATCH_SIZE; lia |].
  cbn [bind]. rewrite Hx. unfold IMAGE_SIZE, PATCH_SIZE.
  replace (w * 768) with (48 * w * 16) by lia.
  rewrite Z.div_mul_cancel_r by lia. reflexivity.
Qed.

(** X2. With the constants of the file (target 768, stride 16) the patch
    grid of a [w] by [h] image has 48 rows and [cols] columns with
    [cols * h <= 48 * w < (cols + 1) * h]: the aspect ratio of the grid is
    that of the image, short by less than one patch column. *)
Theorem grid_keeps_aspect (mask : PILImage) (w h : Z) :
  size mask = (w, h) -> 0 <= w -> 0 < h -> w * IMAGE_SIZE < 2 ^ 53 ->
  exists cols,
    mask_target_size mask IMAGE_SIZE PATCH_SIZE = Ok (48 * 16, cols * 16) /\
    patch_grid mask = (48, cols) /\
    0 <= cols /\
    cols * h <= 48 * w < (cols + 1) * h.
Proof.
  intros Hsize Hw Hh Hbound.
  pose proof (mask_target_size_defaults mask w h Hsize Hw Hh Hbound) as Ht.
  exists (48 * w / h).
  split; [exact Ht|]. split.
  - unfold patch_grid. rewrite Ht.
    change (48 * 16 / PATCH_SIZE) with 48.
    unfold PATCH_SIZE. now rewrite Z.div_mul by discriminate.
  - pose proof (Z.mul_div_le (48 * w) h Hh).
    pose proof (Z.mul_succ_div_gt (48 * w) h Hh).
    split; [apply Z.div_pos; lia|]. split; nia.
Qed.

(** X3. An image of height zero makes both functions raise
    ZeroDivisionError before any resize is asked for, whatever the
    resizers are; so does a stride of zero, for any image. *)
Theorem zero_height_raises (rz : Resizers) (img : PILImage) (w : Z) :
  (size img = (w, 0) ->
   preprocess_image rz img IMAGE_SIZE PATCH_SIZE = Raise ZeroDivisionError /\
   resize_mask rz img IMAGE_SIZE PATCH_SIZE = Raise ZeroDivisionError) /\
  (forall image_size,
     preprocess_image rz img image_size 0 = Raise ZeroDivisionError /\
     resize_mask rz img image_size 0 = Raise ZeroDivisionError).
Proof.
  split.
  - intros Hsize.
    unfold preprocess_image, resize_mask, preprocess_target_size,
      mask_target_size.
    rewrite Hsize, rows_floordiv.
    destruct rows_true_divide as (y & -> & _).
    cbn [bind]. unfold true_divide. now rewrite Z.mul_0_l.
  - intros image_size.
    unfold preprocess_image, resize_mask, preprocess_target_size,
      mask_target_size, floordiv, true_divide.
    destruct (size img) as [w0 h0]. cbn [Z.eqb bind]. split; reflexivity.
Qed.

(** ** What the loop returns and when it raises *)

Lemma extract_loop_pairs (w : World) (image_files : list (string * blob)) :
  forall xs ys xs' ys',
    extract_loop w image_files xs ys = Ok (xs', ys') ->
    exists xs1 ys1,
      xs' = xs ++ xs1 /\ ys' = ys ++ ys1 /\ length xs1 = length ys1 /\
      Forall2 (fun content xy => extract_image w content = Ok (Some xy))
              (accepted_contents w image_files) (combine xs1 ys1).
Proof.
  induction image_files as [|[name content] rest IH]; intros xs ys xs' ys' Hloop.
  - cbn in Hloop. injection Hloop as <- <-. exists [], [].
    rewrite !app_nil_r. repeat split. constructor.
  - cbn [extract_loop] in Hloop. cbn [accepted_contents].
    destruct (extract_image w content) as [r|e] eqn:Hone; [|discriminate].
    cbn [bind] in Hloop.
    pose proof Hone as Hone'. unfold extract_image in Hone'.
    destruct (Image_open w content) as [img|e]; [|discriminate].
    cbn [bind] in Hone'.
    destruct (String.eqb (mode img) "RGBA"); cbn [negb] in Hone'.
    + destruct r as [[feats mq]|].
      * destruct (IH _ _ _ _ Hloop) as (xs1 & ys1 & -> & -> & Hlen & Hall).
        exists (feats :: xs1), (mq :: ys1).
        rewrite <- !app_assoc. cbn [app length combine].
        repeat split; [now rewrite Hlen|]. now constructor.
      * exfalso. clear - Hone'.
        repeat match type of Hone' with
               | (bind ?c _) = _ => destruct c; cbn [bind] in Hone'
               | match ?c with _ => _ end = _ => destruct c; cbn [bind] in Hone'
               end; discriminate.
    + injection Hone' as <-. apply (IH _ _ _ _ Hloop).
Qed.

(** X4. Without any assumption on the libraries: when the loop returns,
    the list of feature arrays and the list of label arrays have one entry
    per accepted image, in the order of the batch, and the k-th entries of
    the two lists are the features and the labels computed from the same
    image. *)
Theorem tables_pair_up (w : World) (image_files : list (string * blob))
    (xs : list ndarray2) (ys : list (list Q)) :
  extract_loop w image_files [] [] = Ok (xs, ys) ->
  length xs = length ys /\
  length xs = length (accepted w image_files) /\
  Forall2 (fun content xy => extract_image w content = Ok (Some xy))
          (accepted_contents w image_files) (combine xs ys).
Proof.
  intros Hloop.
  destruct (extract_loop_pairs w image_files _ _ _ _ Hloop)
    as (xs1 & ys1 & Hx & Hy & Hlen & Hall).
  cbn [app] in Hx, Hy. subst xs1 ys1.
  split; [exact Hlen|]. split; [|exact Hall].
  apply Forall2_length in Hall.
  rewrite length_combine, <- Hlen, Nat.min_id in Hall. rewrite <- Hall.
  clear. induction image_files as [|[n c] rest IH]; [reflexivity|].
  cbn [accepted accepted_contents].
  destruct (Image_open w c) as [img|e]; [|exact IH].
  destruct (String.eqb (mode img) "RGBA"); cbn [length]; now rewrite ?IH.
Qed.

Lemma extract_loop_stops (w : World) (before rest : list (string * blob))
    (name : string) (content : blob) (e : exn) :
  Forall (fun file => exists r, extract_image w (snd file) = Ok r) before ->
  extract_image w content = Raise e ->
  forall xs ys,
    extract_loop w (before ++ (name, content) :: rest) xs ys = Raise e.
Proof.
  intros Hok Hc. induction Hok as [|[n c] before [r Hr] _ IH]; intros xs ys.
  - cbn [app extract_loop]. now rewrite Hc.
  - cbn [app extract_loop]. cbn [snd] in Hr. rewrite Hr. cbn [bind].
    destruct r as [[feats mq]|]; apply IH.
Qed.

(** X5. The loop raises exactly when the processing of some file raises,
    and then it raises the exception of the first such file: nothing is
    caught inside the loop and no later file is looked at. *)
Theorem loop_raises_first_failure (w : World) (image_files : list (string * blob))
    (xs : list ndarray2) (ys : list (list Q)) (e : exn) :
  extract_loop w image_files xs ys = Raise e <->
  exists before name content rest,
    image_files = before ++ (name, content) :: rest /\
    Forall (fun file => exists r, extract_image w (snd file) = Ok r) before /\
    extract_image w content = Raise e.
Proof.
  split.
  - revert xs ys. induction image_files as [|[name content] rest IH];
      intros xs ys Hloop; [discriminate|].
    cbn [extract_loop] in Hloop.
    destruct (extract_image w content) as [r|e'] eqn:Hone.
    + cbn [bind] in Hloop.
      assert (Hrest : exists xs2 ys2, extract_loop w rest xs2 ys2 = Raise e).
      { destruct r as [[feats mq]|]; eauto. }
      destruct Hrest as (xs2 & ys2 & Hrest).
      destruct (IH _ _ Hrest) as (before & n & c & rest' & -> & Hok & Hc).
      exists ((name, content) :: before), n, c, rest'.
      split; [reflexivity|]. split; [|exact Hc].
      constructor; [|exact Hok]. now exists r.
    + cbn [bind] in Hloop. injection Hloop as ->.
      exists [], name, content, rest. repeat split; [constructor|exact Hone].
  - intros (before & name & content & rest & -> & Hok & Hc).
    now apply extract_loop_stops.
Qed.

(** X6. [download_images] returns exactly when every download returns, and
    then it returns the names of the record in order, each with the bytes
    its download returned. *)
Theorem download_images_all (w : World) (images : list string)
    (image_files : list (string * blob)) :
  download_images w images = Ok image_files <->
  Forall2 (fun name file => fst file = name /\ requests_get w name = Ok (snd file))
          images image_files.
Proof.
  split.
  - revert image_files. induction images as [|name rest IH]; intros files H.
    + cbn in H. injection H as <-. constructor.
    + cbn [download_images] in H.
      destruct (requests_get w name) as [c|e] eqn:Hc; [|discriminate].
      cbn [bind] in H.
      destruct (download_images w rest) as [files'|e]; [|discriminate].
      cbn [bind] in H. injection H as <-.
      constructor; [now split|]. now apply IH.
  - induction 1 as [|name [n c] rest files [Hn Hc] _ IH]; [reflexivity|].
    cbn [fst snd] in Hn, Hc. subst n.
    cbn [download_images]. rewrite Hc. cbn [bind]. now rewrite IH.
Qed.

(** X7. A file that cannot be opened as an image is not skipped.  When the
    files before it are processed and [Image.open] raises on it, the run
    makes no call to the trainer: it sets the status to 'failed' and raises
    the exception of [Image.open]. *)
Theorem unreadable_image_fails_run (w : World) (record_id : string)
    (images : list string) (before rest : list (string * blob))
    (name : string) (content : blob) (e : exn) (t : list event) :
  pb_auth w = Ok tt ->
  pb_get_one w record_id = Ok images ->
  pb_update w record_id training = Ok tt ->
  pb_update w record_id failed = Ok tt ->
  download_images w images = Ok (before ++ (name, content) :: rest) ->
  InferenceSession w = Ok tt ->
  Forall (fun file => exists r, extract_image w (snd file) = Ok r) before ->
  Image_open w content = Raise e ->
  train_classifier_op w record_id t
  = (Raise e, t ++ [PbUpdate record_id training; PbUpdate record_id failed]).
Proof.
  intros Hauth Hget Htr Hfail Hdl Hsess Hbefore Hopen.
  assert (Hloop : extract_loop w (before ++ (name, content) :: rest) [] []
                  = Raise e).
  { apply extract_loop_stops; [exact Hbefore|].
    unfold extract_image. now rewrite Hopen. }
  unfold train_classifier_op, try_body, mbind, lift, call, try_except, raise.
  rewrite Hauth, Hget, Htr, Hdl, Hsess, Hloop, Hfail.
  now rewrite <- app_assoc.
Qed.

(** X8. An RGBA image more than 48 times as high as it is wide has a
    patch grid without columns.  With resizers that honour their contract
    its processing raises (the resizer refuses the empty size, or the
    filter refuses the empty mask): such an image is never turned into
    zero patches. *)
Theorem narrow_image_raises (w : World) (content : blob) (img : PILImage)
    (wd h : Z) :
  resize_contract (resizers w) ->
  Image_open w content = Ok img ->
  mode img = "RGBA" ->
  size img = (wd, h) -> 0 <= wd -> 48 * wd < h -> wd * IMAGE_SIZE < 2 ^ 53 ->
  patch_grid img = (48, 0) /\
  exists e, extract_image w content = Raise e.
Proof.
  intros [_ Htf] Hopen Hmode Hsize Hwd Hthin Hbound.
  assert (Hh : 0 < h) by lia.
  pose proof (mask_target_size_defaults img wd h Hsize Hwd Hh Hbound) as Ht.
  assert (Hcols : 48 * wd / h = 0) by (apply Z.div_small; lia).
  rewrite Hcols in Ht.
  split; [unfold patch_grid; now rewrite Ht|].
  unfold extract_image. rewrite Hopen. cbn [bind]. rewrite Hmode.
  cbn [String.eqb Ascii.eqb Bool.eqb negb].
  destruct (Image_load w img) as [u|e]; cbn [bind]; [|now exists e].
  unfold resize_mask.
  rewrite (mask_target_size_ext (split_last img) img) by reflexivity.
  rewrite Ht. cbn [bind].
  destruct (TF_resize (resizers w) (split_last img) (48 * 16, 0 * 16))
    as [r|e] eqn:Hr; cbn [bind]; [|now exists e].
  destruct (Htf _ _ _ _ Hr) as (Hm & Hs & Hlen & Hrows).
  rewrite Hs in Hlen, Hrows. cbn [fst snd] in Hlen, Hrows.
  rewrite to_tensor_L by exact Hm.
  exists RuntimeError. unfold conv2d.
  change (kernel_size patch_quant_filter) with 16%nat.
  rewrite hd_map_nil by reflexivity. rewrite !length_map.
  rewrite (hd_length_uniform _ _ Hrows).
  - rewrite Hlen. reflexivity.
  - intros E. rewrite E in Hlen. discriminate Hlen.
Qed.

(** ** What the trainer is given *)

Lemma mask_index_length {A} (a : list A) (idx : list bool) (r : list A) :
  mask_index a idx = Ok r -> length r = length (selected idx).
Proof.
  intros H. assert (Hlen : length idx = length a).
  { unfold mask_index in H.
    destruct (Nat.eqb_spec (length idx) (length a)); [assumption|discriminate]. }
  destruct a as [|d a].
  - destruct idx; [|discriminate]. cbn in H. now injection H as <-.
  - rewrite (mask_index_selected (d :: a) idx d Hlen) in H.
    injection H as <-. apply length_map.
Qed.





(** ** The status protocol *)

Lemma body_run_shape (w : World) (record_id : string) (res : result unit)
    (evs : list event) :
  body_run w record_id res evs ->
  (statuses evs = [] /\ update_targets evs = [] /\ exists e, res = Raise e) \/
  (statuses evs = ["ready"] /\ update_targets evs = [record_id] /\
   exists X y clf onx,
     LogisticRegression_fit w X y = Ok clf /\
     to_onnx w clf (patch_features_type X) false 17 = Ok onx /\
     res = pb_update w record_id (ready (SerializeToString onx)) /\
     evs = [Fit X y; ToOnnx clf (patch_features_type X) false 17;
            PbUpdate record_id (ready (SerializeToString onx))]).
Proof.
  intros [e|X y e Hfit|X y clf e Hfit Honx|X y clf onx Hfit Honx].
  - left. repeat split. now exists e.
  - left. repeat split. now exists e.
  - left. repeat split. now exists e.
  - right. repeat split. now exists X, y, clf, onx.
Qed.

Lemma statuses_app (a b : list event) :
  statuses (a ++ b) = statuses a ++ statuses b.
Proof. apply flat_map_app. Qed.

Lemma update_targets_app (a b : list event) :
  update_targets (a ++ b) = update_targets a ++ update_targets b.
Proof. apply flat_map_app. Qed.

(** X10. The statuses a run sends to the sink, in order, are one of:
    nothing (the record could not be fetched); 'training'; 'training',
    'failed'; 'training', 'ready'; or 'training', 'ready', 'failed', the
    last only when the call that sends 'ready' itself raises.  Every update
    is sent for the record the op was started on. *)
Theorem status_protocol (w : World) (record_id : string) (t : list event) :
  exists evs,
    snd (train_classifier_op w record_id t) = t ++ evs /\
    Forall (fun rid => rid = record_id) (update_targets evs) /\
    (statuses evs = [] \/
     statuses evs = ["training"] \/
     statuses evs = ["training"; "failed"] \/
     statuses evs = ["training"; "ready"] \/
     (statuses evs = ["training"; "ready"; "failed"] /\
      exists onx e,
        pb_update w record_id (ready (SerializeToString onx)) = Raise e)).
Proof.
  destruct (train_classifier_op_run w record_id t) as (evs & Htrace & Hrun).
  exists evs. split; [exact Htrace|].
  destruct Hrun as [e|e Htr|bevs Hbody|e bevs Hbody].
  - split; [constructor|]. now left.
  - split; [repeat constructor|]. right. now left.
  - destruct (body_run_shape _ _ _ _ Hbody)
      as [(Hs & Ht & _)|(Hs & Ht & _)];
      change (PbUpdate record_id training :: bevs)
        with ([PbUpdate record_id training] ++ bevs);
      rewrite statuses_app, update_targets_app, Hs, Ht.
    + split; [repeat constructor|]. right. now left.
    + split; [repeat constructor|]. do 3 right. now left.
  - change (PbUpdate record_id training :: bevs ++ [PbUpdate record_id failed])
      with ([PbUpdate record_id training] ++ bevs ++ [PbUpdate record_id failed]).
    rewrite !statuses_app, !update_targets_app.
    destruct (body_run_shape _ _ _ _ Hbody)
      as [(Hs & Ht & _)|(Hs & Ht & X & y & clf & onx & _ & _ & Hres & _)];
      rewrite Hs, Ht.
    + split; [repeat constructor|]. do 2 right. now left.
    + split; [repeat constructor|]. do 4 right. split; [reflexivity|].
      exists onx, e. now symmetry.
Qed.

(** X11. The op returns normally exactly when the last status it has
    sent is 'ready'.  Its calls are then, in order: the update to
    'training', one fit, one export of the classifier the fit returned, and
    the update to 'ready' carrying the bytes [SerializeToString] gave for
    the model the export returned. *)
Theorem returns_iff_ready (w : World) (record_id : string) (t : list event) :
  exists evs,
    snd (train_classifier_op w record_id t) = t ++ evs /\
    (fst (train_classifier_op w record_id t) = Ok tt <->
     last_status evs = Some "ready") /\
    (fst (train_classifier_op w record_id t) = Ok tt ->
     exists X y clf onx,
       LogisticRegression_fit w X y = Ok clf /\
       to_onnx w clf (patch_features_type X) false 17 = Ok onx /\
       pb_update w record_id (ready (SerializeToString onx)) = Ok tt /\
       evs = [PbUpdate record_id training; Fit X y;
              ToOnnx clf (patch_features_type X) false 17;
              PbUpdate record_id (ready (SerializeToString onx))]).
Proof.
  destruct (train_classifier_op_run w record_id t) as (evs & Htrace & Hrun).
  exists evs. split; [exact Htrace|].
  destruct Hrun as [e|e Htr|bevs Hbody|e bevs Hbody].
  - split; [split; discriminate|discriminate].
  - split; [split; discriminate|discriminate].
  - destruct (body_run_shape _ _ _ _ Hbody)
      as [(_ & _ & e & He)|(_ & _ & X & y & clf & onx & Hfit & Honx & Hres & ->)];
      [discriminate|].
    split; [split; reflexivity|]. intros _.
    exists X, y, clf, onx. auto.
  - assert (Hraise : exists e', match pb_update w record_id failed with
                                | Ok _ => Raise e
                                | Raise e' => (Raise e' : result unit)
                                end = Raise e').
    { destruct (pb_update w record_id failed); eauto. }
    destruct Hraise as [e' ->].
    change (PbUpdate record_id training :: bevs ++ [PbUpdate record_id failed])
      with ((PbUpdate record_id training :: bevs) ++ [PbUpdate record_id failed]).
    rewrite last_status_snoc.
    split; [split; discriminate|discriminate].
Qed.

(** ** Soft labels in terms of the alpha bytes *)

Section Bytes.
Local Open Scope Q_scope.

Lemma qsum_inject {A} (f : A -> Z) (l : list A) :
  qsum (map (fun x => inject_Z (f x) / 255) l)
  == inject_Z (fold_right Z.add 0%Z (map f l)) / 255.
Proof.
  induction l as [|x l IH]; cbn [map fold_right].
  - reflexivity.
  - rewrite qsum_cons, IH, inject_Z_plus. field.
Qed.

Lemma zsum_bounds {A} (f : A -> Z) (l : list A) (hi : Z) :
  (forall x, In x l -> (0 <= f x <= hi)%Z) ->
  (0 <= fold_right Z.add 0%Z (map f l) <= Z.of_nat (length l) * hi)%Z.
Proof.
  induction l as [|x l IH]; intros H; cbn [map fold_right length].
  - lia.
  - specialize (H x (or_introl eq_refl)) as Hx.
    assert (IH' : (0 <= fold_right Z.add 0%Z (map f l)
                   <= Z.of_nat (length l) * hi)%Z).
    { apply IH. intros y Hy. apply H. now right. }
    lia.
Qed.

(** The quantized mask, entry by entry. *)
Lemma quantized_entries (rows cols : nat) (plane : list (list Q)) :
  (0 < rows)%nat -> (0 < cols)%nat ->
  length plane = (rows * 16)%nat ->
  Forall (fun row => length row = (cols * 16)%nat) plane ->
  exists quantized,
    conv2d patch_quant_filter [plane] = Ok quantized /\
    length (flatten3 quantized) = (rows * cols)%nat /\
    forall i j, (i < rows)%nat -> (j < cols)%nat ->
      nth (i * cols + j) (flatten3 quantized) 0 == patch_mean 16 plane i j.
Proof.
  intros Hrows Hcols HH HW.
  assert (Hhd : length (hd [] plane) = (cols * 16)%nat).
  { apply hd_length_uniform; [exact HW|].
    intros E. rewrite E in HH. cbn in HH. lia. }
  destruct (conv2d patch_quant_filter [plane]) as [q|e] eqn:Hq.
  2:{ exfalso. unfold conv2d in Hq.
      change (kernel_size patch_quant_filter) with 16%nat in Hq.
      rewrite HH, Hhd in Hq.
      destruct (Nat.ltb_spec (rows * 16) 16); [lia|].
      destruct (Nat.ltb_spec (cols * 16) 16); [lia|]. discriminate Hq. }
  exists q. split; [reflexivity|].
  assert (Hr : ((rows * 16 - 16) / 16 + 1 = rows)%nat).
  { replace (rows * 16 - 16)%nat with ((rows - 1) * 16)%nat by lia.
    rewrite Nat.div_mul by discriminate. lia. }
  assert (Hc : ((cols * 16 - 16) / 16 + 1 = cols)%nat).
  { replace (cols * 16 - 16)%nat with ((cols - 1) * 16)%nat by lia.
    rewrite Nat.div_mul by discriminate. lia. }
  destruct (conv2d_shape plane q Hq) as (_ & _ & Hlen).
  rewrite HH, Hhd, Hr, Hc in Hlen.
  split; [exact Hlen|].
  intros i j Hi Hj.
  unfold conv2d in Hq.
  change (kernel_size patch_quant_filter) with 16%nat in Hq.
  change (stride patch_quant_filter) with 16%nat in Hq.
  rewrite HH, Hhd, Hr, Hc in Hq.
  destruct (Nat.ltb_spec (rows * 16) 16); [lia|].
  destruct (Nat.ltb_spec (cols * 16) 16); [lia|].
  cbn [orb] in Hq. injection Hq as <-.
  unfold flatten3. cbn [concat]. rewrite app_nil_r.
  rewrite (nth_concat_uniform _ cols i j 0).
  - rewrite (nth_indep _ [] (map (fun j => conv_at patch_quant_filter plane 0 j)
                                 (seq 0 cols)))
      by (now rewrite length_map, length_seq).
    rewrite (map_nth (fun i => map (fun j => conv_at patch_quant_filter plane i j)
                                   (seq 0 cols))).
    rewrite seq_nth by assumption. cbn [Nat.add].
    rewrite (nth_indep _ 0 (conv_at patch_quant_filter plane i 0))
      by (now rewrite length_map, length_seq).
    rewrite (map_nth (fun j => conv_at patch_quant_filter plane i j)).
    rewrite seq_nth by assumption. cbn [Nat.add].
    apply conv_at_mean.
  - apply Forall_forall. intros l Hl. apply in_map_iff in Hl.
    destruct Hl as (k & <- & _). now rewrite length_map, length_seq.
  - exact Hj.
Qed.

Lemma mask_plane_entry (r : PILImage) (rows cols i j a b : nat) :
  length (pixels r) = (rows * 16)%nat ->
  Forall (fun row => length row = (cols * 16)%nat) (pixels r) ->
  (i < rows)%nat -> (j < cols)%nat -> (a < 16)%nat -> (b < 16)%nat ->
  nth (j * 16 + b)
      (nth (i * 16 + a)
           (map (map (fun px => inject_Z (nth 0 px 0%Z) / 255)) (pixels r)) []) 0
  = inject_Z (nth 0 (nth (j * 16 + b) (nth (i * 16 + a) (pixels r) []) []) 0%Z)
    / 255.
Proof.
  intros HH HW Hi Hj Ha Hb.
  rewrite (nth_map_default _ _ [] [] (i * 16 + a)) by reflexivity.
  assert (Hrow : length (nth (i * 16 + a) (pixels r) []) = (cols * 16)%nat).
  { apply (nth_in_Forall _ _ _ _ HW). lia. }
  rewrite (nth_indep _ 0 (inject_Z (nth 0 [] 0%Z) / 255))
    by (rewrite length_map, Hrow; lia).
  apply (map_nth (fun px => inject_Z (nth 0 px 0%Z) / 255)).
Qed.

(** X12. For a mask of mode L of [rows*16] by [cols*16] pixels with bytes
    in [0, 255], the soft label of patch (i, j) is the sum of its 256 bytes
    divided by 255 * 256 = 65280.  The patch is in the Clean Subset exactly
    when that sum is at most 652 or at least 64628; a patch of bytes all 0
    has soft label 0 and is binarized to class 0, a patch of bytes all 255
    has soft label 1 and is binarized to class 1. *)
Theorem soft_label_from_bytes (r : PILImage) (rows cols : nat) :
  mode r = "L" ->
  (0 < rows)%nat -> (0 < cols)%nat ->
  length (pixels r) = (rows * 16)%nat ->
  Forall (fun row => length row = (cols * 16)%nat) (pixels r) ->
  wf_pixels r ->
  exists quantized,
    conv2d patch_quant_filter (to_tensor r) = Ok quantized /\
    let labels := flatten3 quantized in
    length labels = (rows * cols)%nat /\
    forall i j, (i < rows)%nat -> (j < cols)%nat ->
      let s := patch_byte_sum r i j in
      let k := (i * cols + j)%nat in
      nth k labels 0 == inject_Z s / 65280 /\
      (0 <= s <= 65280)%Z /\
      (nth k (clean_mask labels) false = true <-> (s <= 652 \/ 64628 <= s)%Z) /\
      (s = 0%Z -> nth k labels 0 == 0 /\ nth k (fit_labels labels) 0%Z = 0%Z) /\
      (s = 65280%Z -> nth k labels 0 == 1 /\ nth k (fit_labels labels) 0%Z = 1%Z).
Proof.
  intros Hmode Hrows Hcols HH HW Hpx.
  rewrite to_tensor_L by exact Hmode.
  set (plane := map (map (fun px => inject_Z (nth 0 px 0%Z) / 255)) (pixels r)).
  destruct (quantized_entries rows cols plane Hrows Hcols)
    as (q & Hq & Hlen & Hentry).
  { unfold plane. now rewrite length_map. }
  { unfold plane. rewrite Forall_map. revert HW. apply Forall_impl.
    intros row Hrow. now rewrite length_map. }
  exists q. split; [exact Hq|]. cbv zeta. split; [exact Hlen|].
  intros i j Hi Hj.
  assert (Hk : (i * cols + j < rows * cols)%nat) by nia.
  set (k := (i * cols + j)%nat) in *.
  set (s := patch_byte_sum r i j).
  assert (Hlabel : nth k (flatten3 q) 0 == inject_Z s / 65280).
  { unfold k. rewrite (Hentry i j Hi Hj). unfold patch_mean.
    transitivity (qsum (map (fun a => inject_Z (fold_right Z.add 0%Z
        (map (fun b => nth 0 (nth (j * 16 + b) (nth (i * 16 + a) (pixels r) []) []) 0%Z)
             (seq 0 16))) / 255) (seq 0 16)) / inject_Z (Z.of_nat (16 * 16))).
    - apply Qdiv_comp; [|reflexivity].
      apply qsum_ext. intros a Ha. apply in_seq in Ha.
      rewrite <- qsum_inject. apply qsum_ext. intros b Hb. apply in_seq in Hb.
      unfold plane. rewrite (mask_plane_entry r rows cols i j a b) by (assumption || lia).
      reflexivity.
    - rewrite qsum_inject. fold (patch_byte_sum r i j). fold s.
      change (inject_Z (Z.of_nat (16 * 16))) with 256. field. }
  assert (Hs : (0 <= s <= 65280)%Z).
  { unfold s, patch_byte_sum.
    change 65280%Z with (Z.of_nat (length (seq 0 16)) * (16 * 255))%Z.
    apply zsum_bounds. intros a Ha. apply in_seq in Ha.
    change (16 * 255)%Z with (Z.of_nat (length (seq 0 16)) * 255)%Z.
    apply zsum_bounds. intros b Hb. apply in_seq in Hb.
    set (px := nth (j * 16 + b) (nth (i * 16 + a) (pixels r) []) []).
    assert (Hrow : Forall (fun px => length px = getbands (mode r) /\
                       Forall (fun v => (0 <= v <= 255)%Z) px)
                     (nth (i * 16 + a) (pixels r) [])).
    { apply (nth_in_Forall _ _ _ _ Hpx). lia. }
    assert (Hwf : length px = getbands (mode r) /\
                  Forall (fun v => (0 <= v <= 255)%Z) px).
    { unfold px. apply (nth_in_Forall _ _ _ _ Hrow).
      rewrite (nth_in_Forall _ _ (i * 16 + a)%nat [] HW) by lia. lia. }
    destruct Hwf as [Hl Hb255]. rewrite Hmode in Hl.
    apply (nth_in_Forall _ _ _ _ Hb255). rewrite Hl. cbn. lia. }
  assert (Hlo : nth k (flatten3 q) 0 < float32_0_01 <-> (s <= 652)%Z).
  { rewrite Hlabel. unfold float32_0_01, Qlt, Qdiv, Qmult, Qinv, inject_Z.
    cbn [Qnum Qden]. lia. }
  assert (Hhi : float32_0_99 < nth k (flatten3 q) 0 <-> (64628 <= s)%Z).
  { rewrite Hlabel. unfold float32_0_99, Qlt, Qdiv, Qmult, Qinv, inject_Z.
    cbn [Qnum Qden]. lia. }
  assert (Hfit : nth k (fit_labels (flatten3 q)) 0%Z
                 = if Qlt_bool 0 (nth k (flatten3 q) 0) then 1%Z else 0%Z).
  { unfold fit_labels.
    rewrite (nth_indep _ 0%Z (if Qlt_bool 0 0 then 1%Z else 0%Z))
      by (rewrite length_map, Hlen; exact Hk).
    apply (map_nth (fun y => if Qlt_bool 0 y then 1%Z else 0%Z)). }
  split; [exact Hlabel|]. split; [exact Hs|]. split; [|split].
  - rewrite clean_mask_nth, Hlo, Hhi. rewrite Hlen. tauto.
  - intros E. assert (H0 : nth k (flatten3 q) 0 == 0).
    { rewrite Hlabel, E. reflexivity. }
    split; [exact H0|]. rewrite Hfit.
    destruct (Qlt_bool 0 (nth k (flatten3 q) 0)) eqn:Hb; [|reflexivity].
    apply Qlt_bool_iff in Hb. rewrite H0 in Hb. discriminate Hb.
  - intros E. assert (H1 : nth k (flatten3 q) 0 == 1).
    { rewrite Hlabel, E. reflexivity. }
    split; [exact H1|]. rewrite Hfit.
    rewrite (proj2 (Qlt_bool_iff 0 _)); [reflexivity|].
    rewrite H1. reflexivity.
Qed.

End Bytes.

(** ** The sensor and the job *)

Lemma append_inj (s a b : string) :
  (s ++ a)%string = (s ++ b)%string -> a = b.
Proof.
  induction s as [|c s IH]; cbn [String.append]; intros H; [exact H|].
  injection H as H. now apply IH.
Qed.

Lemma NoDup_map_injective {A B} (f : A -> B) (l : list A) :
  (forall a b, f a = f b -> a = b) -> NoDup l -> NoDup (map f l).
Proof.
  intros Hinj. induction 1 as [|x l Hx _ IH]; cbn [map]; constructor.
  - intros Hin. apply in_map_iff in Hin. destruct Hin as (y & Hy & Hin).
    apply Hinj in Hy. now subst y.
  - exact IH.
Qed.

Lemma requested_record_for (record_id key : string) :
  requested_record (RunRequest key (run_config_for record_id)) = Ok record_id.
Proof. reflexivity. Qed.

(** X13. The sensor always yields something.  When the login or the
    listing raises, it yields one SkipReason whose text starts with
    'Connection error: '; when the listing returns no record, it yields
    the one SkipReason 'No pending datasets found.' and no RunRequest;
    otherwise it yields no SkipReason at all but one RunRequest
    per listed record, in the order of the listing, whose configuration
    names that record.  So it yields at most as many requests as the
    listing returns records: ten, when the store honours [per_page]. *)
Theorem sensor_yields (p : Polling) :
  pocketbase_sensor p <> [] /\
  (forall msg, In (SkipReason msg) (pocketbase_sensor p) ->
     pocketbase_sensor p = [SkipReason msg]) /\
  (forall e, (_ <- admins_auth p ;; get_list p pending_query) = Raise e ->
     pocketbase_sensor p
     = [SkipReason ("Connection error: " ++ exn_str p e)%string]) /\
  ((_ <- admins_auth p ;; get_list p pending_query) = Ok [] ->
     pocketbase_sensor p = [SkipReason "No pending datasets found."]) /\
  (forall items, (_ <- admins_auth p ;; get_list p pending_query) = Ok items ->
     items <> [] ->
     map requested_record (pocketbase_sensor p)
     = map (fun record => Ok (id record)) items /\
     ((forall q l, get_list p q = Ok l -> Z.of_nat (length l) <= per_page q) ->
      (length (pocketbase_sensor p) <= 10)%nat)).
Proof.
  unfold pocketbase_sensor.
  destruct (_ <- admins_auth p ;; get_list p pending_query)
    as [[|r items]|e] eqn:Hpoll.
  - split; [discriminate|]. split; [|split; [|split]].
    + intros msg [H|[]]. now rewrite H.
    + discriminate.
    + reflexivity.
    + intros items H. injection H as <-. congruence.
  - split; [discriminate|]. split; [|split; [|split]].
    + intros msg Hin. exfalso. apply in_map_iff in Hin.
      destruct Hin as (x & Hx & _). discriminate Hx.
    + discriminate.
    + discriminate.
    + intros items0 H _. injection H as <-. split.
      * rewrite map_map. apply map_ext. intros record.
        apply requested_record_for.
      * intros Hpage. rewrite length_map.
        destruct (admins_auth p); [|discriminate]. cbn [bind] in Hpoll.
        specialize (Hpage _ _ Hpoll). cbn [per_page pending_query] in Hpage.
        lia.
  - split; [discriminate|]. split; [|split; [|split]].
    + intros msg [H|[]]. now rewrite H.
    + intros e0 H. now injection H as <-.
    + discriminate.
    + discriminate.
Qed.

(** X14. Records with different ids get different run keys: when the
    listing has no id twice, no run key is yielded twice. *)
Theorem run_keys_unique (p : Polling) (items : list PbRecord) :
  (_ <- admins_auth p ;; get_list p pending_query) = Ok items ->
  NoDup (map id items) ->
  NoDup (map request_key (pocketbase_sensor p)).
Proof.
  intros Hpoll Hnodup. unfold pocketbase_sensor. rewrite Hpoll.
  destruct items as [|r items]; [repeat constructor; intros []|].
  rewrite map_map. cbn [request_key].
  change (fun x : PbRecord => Some ("train_" ++ id x)%string)
    with (fun x : PbRecord => (fun s => Some ("train_" ++ s)%string) (id x)).
  rewrite <- (map_map id (fun s => Some ("train_" ++ s)%string)).
  apply NoDup_map_injective; [|exact Hnodup].
  intros a b H. apply (append_inj "train_"). congruence.
Qed.

(** X15. A run launched from a request of the sensor trains the record
    the request was made for: the job, given the request's configuration,
    behaves as [train_classifier_op] on the id of that record. *)
Theorem request_trains_its_record (p : Polling) (w : World)
    (run_key : string) (run_config : config) :
  In (RunRequest run_key run_config) (pocketbase_sensor p) ->
  exists record items,
    (_ <- admins_auth p ;; get_list p pending_query) = Ok items /\
    In record items /\
    run_key = ("train_" ++ id record)%string /\
    forall t, training_job w run_config t = train_classifier_op w (id record) t.
Proof.
  unfold pocketbase_sensor.
  destruct (_ <- admins_auth p ;; get_list p pending_query)
    as [[|r items]|e] eqn:Hpoll.
  - intros [H|[]]. discriminate H.
  - intros Hin. apply in_map_iff in Hin. destruct Hin as (record & Hreq & Hin).
    injection Hreq as <- <-.
    exists record, (r :: items).
    split; [reflexivity|]. split; [exact Hin|]. split; [reflexivity|].
    intros t. reflexivity.
  - intros [H|[]]. discriminate H.
Qed.

(** ** The range of the extractor's input *)

Section Range.
Local Open Scope Q_scope.

Lemma normalized_pixel_range (px : list Z) (c : nat) :
  Forall (fun v => (0 <= v <= 255)%Z) px ->
  - (2118 # 1000)
  <= nth c (map (fun '(v, (m, s)) => (v - m) / s)
             (combine (map (fun v => inject_Z v / 255) px)
                      (combine IMAGENET_MEAN IMAGENET_STD))) 0
  <= 264 # 100.
Proof.
  intros Hpx.
  assert (Hone : forall v m s lo hi,
    (0 <= v <= 255)%Z -> 0 < s ->
    lo * s + m <= 0 -> 1 <= hi * s + m ->
    lo <= (inject_Z v / 255 - m) / s <= hi).
  { intros v m s lo hi [Hv0 Hv1] Hs Hlo Hhi.
    assert (H0 : 0 <= inject_Z v)
      by (change 0 with (inject_Z 0); now rewrite <- Zle_Qle).
    assert (H1 : inject_Z v <= 255)
      by (change 255 with (inject_Z 255); now rewrite <- Zle_Qle).
    split.
    - apply Qle_shift_div_l; [exact Hs|].
      unfold Qdiv. change (/ 255) with (1 # 255). lra.
    - apply Qle_shift_div_r; [exact Hs|].
      unfold Qdiv. change (/ 255) with (1 # 255). lra. }
  unfold IMAGENET_MEAN, IMAGENET_STD. cbn [combine].
  destruct px as [|p0 [|p1 [|p2 px]]]; cbn [map combine];
    repeat match goal with
           | H : Forall _ (_ :: _) |- _ => inversion H; clear H; subst
           end;
    destruct c as [|[|[|c]]]; cbn [nth];
    try (split; discriminate);
    try (apply Hone; [assumption | reflexivity | discriminate | discriminate]).
  rewrite combine_nil. cbn [map]. destruct c; cbn [nth]; split; discriminate.
Qed.

(** X16. When the resizer returns, for the image at hand, an RGB raster
    of bytes in [0, 255], the tensor that [preprocess_image] hands to the
    feature extractor has one plane per colour band and every entry of it
    lies between -2.12 and 2.65, for any target size and stride.  The
    bounds leave room for the float32 rounding of lines 41-44: the
    unrounded entries lie between -0.485/0.229 and 0.594/0.225. *)
Theorem extractor_input_range (rz : Resizers) (img_pil : PILImage)
    (image_size patch_size : Z) (t : tensor4) :
  (forall sz r, Image_resize rz img_pil sz = Ok r ->
     mode r = "RGB" /\ wf_pixels r) ->
  preprocess_image rz img_pil image_size patch_size = Ok t ->
  (exists planes, t = [planes] /\ length planes = 3%nat) /\
  Forall (Forall (Forall (Forall
    (fun v => - (212 # 100) <= v <= 265 # 100)))) t.
Proof.
  intros Hbytes. unfold preprocess_image.
  destruct (preprocess_target_size img_pil image_size patch_size)
    as [target|e]; cbn [bind]; [|discriminate].
  destruct (Image_resize rz img_pil (snd target, fst target)) as [r|e] eqn:Hr;
    cbn [bind]; [|discriminate].
  intros H. injection H as <-.
  destruct (Hbytes _ _ Hr) as [Hmode Hpx]. split.
  { eexists. split; [reflexivity|].
    unfold transpose_201. rewrite length_map, length_seq, Hmode. reflexivity. }
  constructor; [|constructor].
  unfold transpose_201, normalize, img_to_np.
  apply Forall_map. apply Forall_forall. intros c _.
  rewrite !Forall_map. revert Hpx. unfold wf_pixels. apply Forall_impl.
  intros row Hrow. rewrite !Forall_map. revert Hrow. apply Forall_impl.
  intros px [_ Hpx].
  destruct (normalized_pixel_range px c Hpx) as [Hlo Hhi]. split.
  - apply (Qle_trans _ (- (2118 # 1000))); [discriminate|exact Hlo].
  - apply (Qle_trans _ (264 # 100)); [exact Hhi|discriminate].
Qed.

End Range.

(** ** Reaching the trainer *)

(** X17. With an extractor and resizers that honour their contracts, once
    the loop has returned at least one feature array and the arrays agree
    on the feature width, neither the concatenations nor the filter can
    raise: the run calls the trainer. *)
Theorem run_reaches_trainer (w : World) (record_id : string)
    (images : list string) (image_files : list (string * blob))
    (a : ndarray2) (xs : list ndarray2) (ys : list (list Q))
    (t : list event) :
  extractor_contract w -> resize_contract (resizers w) ->
  pb_auth w = Ok tt ->
  pb_get_one w record_id = Ok images ->
  pb_update w record_id training = Ok tt ->
  download_images w images = Ok image_files ->
  InferenceSession w = Ok tt ->
  extract_loop w image_files [] [] = Ok (a :: xs, ys) ->
  Forall (fun b => arr_cols b = arr_cols a) xs ->
  exists X y, In (Fit X y) (snd (train_classifier_op w record_id t)).
Proof.
  intros Hext Hrz Hauth Hget Htr Hdl Hsess Hloop Hcols.
  destruct (extract_loop_invariant w Hext Hrz _ _ _ _ _ Hloop) as [Hx Hy].
  destruct (extract_loop_pairs w _ _ _ _ _ Hloop)
    as (xs1 & ys1 & Exs & Eys & Hlen & _).
  cbn [app] in Exs, Eys. subst xs1 ys1.
  assert (HX : concatenate2 (a :: xs)
               = Ok {| arr_cols := arr_cols a;
                       arr_rows := concat (map arr_rows (a :: xs)) |}).
  { unfold concatenate2.
    replace (forallb (fun b => Nat.eqb (arr_cols b) (arr_cols a)) xs) with true;
      [reflexivity|].
    symmetry. apply forallb_forall. intros b Hb. apply Nat.eqb_eq.
    apply (proj1 (Forall_forall _ _) Hcols b Hb). }
  assert (HY : concatenate1 ys = Ok (concat ys)).
  { destruct ys; [discriminate Hlen|reflexivity]. }
  assert (Hrows : length (concat (map arr_rows (a :: xs))) = length (concat ys)).
  { change (total_rows (a :: xs) = total_labels ys).
    rewrite Hx, Hy. reflexivity. }
  unfold train_classifier_op, try_body, mbind, lift, call, try_except, raise.
  rewrite Hauth, Hget, Htr, Hdl, Hsess, Hloop. cbn [fst snd].
  rewrite HX, HY.
  unfold mask_index2.
  rewrite (mask_index_selected _ (clean_mask (concat ys)) [])
    by (unfold clean_mask; rewrite length_map; cbn [arr_rows]; congruence).
  cbn [bind].
  rewrite (mask_index_selected (concat ys) (clean_mask (concat ys)) 0%Q)
    by (unfold clean_mask; apply length_map).
  eexists. eexists.
  destruct (LogisticRegression_fit w _ _) as [clf|e].
  - destruct (to_onnx w clf _ false 17) as [onx|e].
    + destruct (pb_update w record_id (ready (SerializeToString onx)));
        [|destruct (pb_update w record_id failed)]; cbn [snd];
        repeat first [ solve [apply in_or_app; right; left; reflexivity]
                     | apply in_or_app; left ].
    + destruct (pb_update w record_id failed); cbn [snd];
        repeat first [ solve [apply in_or_app; right; left; reflexivity]
                     | apply in_or_app; left ].
  - destruct (pb_update w record_id failed); cbn [snd];
      repeat first [ solve [apply in_or_app; right; left; reflexivity]
                     | apply in_or_app; left ].
Qed.

(** ** The further statements at concrete inputs *)

Lemma target_size_for_parameters_witness :
  preprocess_target_size Demo.opaque 224 14 = Ok (224, 224) /\
  mask_target_size Demo.opaque 224 14 = Ok (224, 224).
Proof.
  destruct (target_size_for_parameters Demo.opaque Demo.opaque 2 2 224 14
              eq_refl eq_refl ltac:(lia) ltac:(lia) ltac:(lia) eq_refl
              ltac:(lia)) as (Hp & Hm & _).
  split; [exact Hp | exact Hm].
Defined.

Lemma grid_keeps_aspect_witness :
  exists cols,
    patch_grid Demo.two_tone = (48, cols) /\
    cols * 48 <= 48 * 1 < (cols + 1) * 48.
Proof.
  destruct (grid_keeps_aspect Demo.two_tone 1 48 eq_refl
              ltac:(lia) ltac:(lia) eq_refl)
    as (cols & _ & Hgrid & _ & Haspect).
  exists cols. split; [exact Hgrid | exact Haspect].
Defined.

Lemma zero_height_raises_witness :
  preprocess_image Demo.rz Cases.flat IMAGE_SIZE PATCH_SIZE
  = Raise ZeroDivisionError /\
  resize_mask Demo.rz Cases.flat IMAGE_SIZE PATCH_SIZE
  = Raise ZeroDivisionError.
Proof.
  exact (proj1 (zero_height_raises Demo.rz Cases.flat 5) eq_refl).
Defined.

Lemma tables_pair_up_witness :
  length [Demo.features 48] = length [repeat 1%Q 24 ++ repeat 0%Q 24] /\
  length [Demo.features 48]
  = length (accepted (Demo.world [])
              [("two_tone.png", "two_tone.png"); ("opaque.jpg", "opaque.jpg")]).
Proof.
  assert (Hloop : extract_loop (Demo.world [])
            [("two_tone.png", "two_tone.png"); ("opaque.jpg", "opaque.jpg")]
            [] [] = Ok ([Demo.features 48], [repeat 1%Q 24 ++ repeat 0%Q 24]))
    by (vm_compute; reflexivity).
  destruct (tables_pair_up _ _ _ _ Hloop) as (H1 & H2 & _).
  split; [exact H1 | exact H2].
Defined.

Lemma unreadable_image_fails_run_witness :
  train_classifier_op (Demo.world ["opaque.jpg"; "broken.bin"]) "rec1" []
  = (Raise (Exn "UnidentifiedImageError"),
     [PbUpdate "rec1" training; PbUpdate "rec1" failed]).
Proof.
  apply (unreadable_image_fails_run (Demo.world ["opaque.jpg"; "broken.bin"])
           "rec1" ["opaque.jpg"; "broken.bin"] [("opaque.jpg", "opaque.jpg")] []
           "broken.bin" "broken.bin" (Exn "UnidentifiedImageError") []
           eq_refl eq_refl eq_refl eq_refl eq_refl eq_refl).
  - constructor; [|constructor]. exists None. reflexivity.
  - reflexivity.
Defined.

Lemma narrow_image_raises_witness :
  patch_grid Cases.narrow = (48, 0) /\
  exists e, extract_image (Cases.world []) "narrow.png" = Raise e.
Proof.
  apply (narrow_image_raises (Cases.world []) "narrow.png" Cases.narrow 1 49
           demo_resize_contract eq_refl eq_refl eq_refl
           ltac:(lia) ltac:(lia) eq_refl).
Defined.


Lemma soft_label_from_bytes_witness :
  exists quantized,
    conv2d patch_quant_filter (to_tensor Cases.opaque_patch) = Ok quantized /\
    (nth 0 (flatten3 quantized) 0 == 1)%Q /\
    nth 0 (clean_mask (flatten3 quantized)) false = true.
Proof.
  destruct (soft_label_from_bytes Cases.opaque_patch 1 1)
    as (quantized & Hq & _ & Hall).
  - reflexivity.
  - lia.
  - lia.
  - reflexivity.
  - apply Forall_forall. intros row Hrow.
    apply repeat_spec in Hrow. now subst row.
  - apply wf_pixels_check. vm_compute. reflexivity.
  - exists quantized. split; [exact Hq|].
    destruct (Hall 0%nat 0%nat) as (_ & _ & Hclean & _ & Hone); [lia|lia|].
    split.
    + apply Hone. vm_compute. reflexivity.
    + apply Hclean. right. vm_compute. discriminate.
Defined.

Lemma run_keys_unique_witness :
  NoDup (map request_key (pocketbase_sensor Cases.two_pending)).
Proof.
  apply (run_keys_unique Cases.two_pending _ eq_refl).
  constructor; [intros [H|[]]; discriminate H|].
  constructor; [intros []|constructor].
Defined.

Lemma request_trains_its_record_witness :
  training_job (Demo.world []) (run_config_for "b2") []
  = train_classifier_op (Demo.world []) "b2" [].
Proof.
  destruct (request_trains_its_record Cases.two_pending (Demo.world [])
              "train_b2" (run_config_for "b2"))
    as (record & items & Hpoll & Hin & Hkey & Hjob).
  - right. left. reflexivity.
  - injection Hpoll as <-.
    destruct Hin as [<-|[<-|[]]]; [discriminate Hkey|].
    apply Hjob.
Defined.

Lemma grey_rz_bytes (img : PILImage) (sz : Z * Z) (r : PILImage) :
  Image_resize Cases.grey_rz img sz = Ok r -> mode r = "RGB" /\ wf_pixels r.
Proof.
  cbn [Image_resize Cases.grey_rz]. unfold Cases.grey_raster.
  destruct ((fst sz <=? 0) || (snd sz <=? 0)); [discriminate|].
  intros H. injection H as <-. split; [reflexivity|].
  unfold wf_pixels. cbn [pixels mode].
  apply Forall_forall. intros row Hrow. apply repeat_spec in Hrow. subst row.
  apply Forall_forall. intros px Hpx. apply repeat_spec in Hpx. subst px.
  split; [reflexivity|]. repeat constructor; lia.
Qed.

Lemma extractor_input_range_witness :
  exists t,
    preprocess_image Cases.grey_rz Demo.opaque 32 16 = Ok t /\
    (exists planes, t = [planes] /\ length planes = 3%nat) /\
    Forall (Forall (Forall (Forall
      (fun v => (- (212 # 100) <= v <= 265 # 100)%Q)))) t.
Proof.
  destruct (preprocess_image Cases.grey_rz Demo.opaque 32 16) as [t|e] eqn:Ht.
  - exists t. split; [reflexivity|].
    apply (extractor_input_range Cases.grey_rz Demo.opaque 32 16 t);
      [apply grey_rz_bytes | exact Ht].
  - vm_compute in Ht. discriminate Ht.
Defined.

Lemma run_reaches_trainer_witness :
  exists X y,
    In (Fit X y) (snd (train_classifier_op (Demo.world ["two_tone.png"]) "rec1" [])).
Proof.
  apply (run_reaches_trainer (Demo.world ["two_tone.png"]) "rec1"
           ["two_tone.png"] [("two_tone.png", "two_tone.png")]
           (Demo.features 48) [] [repeat 1%Q 24 ++ repeat 0%Q 24] []
           (demo_extractor_contract _) demo_resize_contract
           eq_refl eq_refl eq_refl eq_refl eq_refl).
  - vm_compute. reflexivity.
  - constructor.
Defined.

Lemma loop_raises_first_failure_witness :
  extract_loop (Demo.world [])
    ([("opaque.jpg", "opaque.jpg")] ++ ("broken.bin", "broken.bin") :: [])
    [] [] = Raise (Exn "UnidentifiedImageError").
Proof.
  apply (proj2 (loop_raises_first_failure (Demo.world []) _ [] []
                  (Exn "UnidentifiedImageError"))).
  exists [("opaque.jpg", "opaque.jpg")], "broken.bin", "broken.bin", [].
  split; [reflexivity|]. split; [|reflexivity].
  constructor; [|constructor]. exists None. reflexivity.
Defined.

Lemma download_images_all_witness :
  download_images (Demo.world []) ["a.png"; "b.png"]
  = Ok [("a.png", "a.png"); ("b.png", "b.png")].
Proof.
  apply (proj2 (download_images_all (Demo.world []) _ _)).
  repeat constructor.
Defined.

Lemma returns_iff_ready_witness :
  fst (train_classifier_op (Demo.world ["two_tone.png"]) "rec1" []) = Ok tt /\
  exists evs,
    snd (train_classifier_op (Demo.world ["two_tone.png"]) "rec1" []) = evs /\
    last_status evs = Some "ready".
Proof.
  assert (Hok : fst (train_classifier_op (Demo.world ["two_tone.png"]) "rec1" [])
                = Ok tt) by (vm_compute; reflexivity).
  split; [exact Hok|].
  destruct (returns_iff_ready (Demo.world ["two_tone.png"]) "rec1" [])
    as (evs & Htrace & Hiff & _).
  exists evs. split; [exact Htrace|]. apply Hiff. exact Hok.
Defined.

Lemma sensor_yields_witness :
  map requested_record (pocketbase_sensor Cases.two_pending)
  = [Ok "a1"; Ok "b2"] /\
  (length (pocketbase_sensor Cases.two_pending) <= 10)%nat /\
  pocketbase_sensor Cases.none_pending
  = [SkipReason "No pending datasets found."].
Proof.
  destruct (sensor_yields Cases.two_pending) as (_ & _ & _ & _ & Hitems).
  destruct (sensor_yields Cases.none_pending) as (_ & _ & _ & Hnone & _).
  destruct (Hitems _ eq_refl) as [Hmap _]; [discriminate|].
  split; [exact Hmap|]. split; [cbn; lia|]. exact (Hnone eq_refl).
Defined.
